(** * Invoice service: a shallow embedding of [app/routes/invoices.py]

    The four route handlers ([create_invoice], [list_invoices],
    [get_invoice], [delete_invoice]) are embedded as computations in a small
    state-and-exception monad over the relational store (the four tables the
    SQL of the handlers mentions).  Numbers that Python keeps as [float]
    (prices, tax rate, totals) live in an abstract arithmetic [Num], with
    exact rationals and binary64 floats as instances; only the conclusions
    that need an arithmetic law ask for one ([NumLaws]).  Python's [int]s
    (ids, quantities) are unbounded: an [int] that SQLite cannot bind to a
    [?], or that does not convert to [float], raises [OverflowError] where
    the source binds or multiplies it. *)

From Stdlib Require Import ZArith List String Bool Lia DecimalString.
From Stdlib Require Import Sorting.Sorted Sorting.Permutation.
From Stdlib Require Import QArith Qcanon.
From Stdlib Require PrimFloat SpecFloat FloatOps.
Import ListNotations.

Local Open Scope string_scope.
Local Open Scope list_scope.
Local Open Scope Z_scope.

(** ** Arithmetic *)

(** The operations the handlers apply to prices, tax rates and totals.
    [of_int] is the conversion Python applies to an [int] operand that meets
    a [float] one ([subtotal = 0], [price * quantity], [tax / 100]). *)
Class Num (num : Type) : Type := {
  of_int : Z -> num;
  add : num -> num -> num;
  mul : num -> num -> num;
  div : num -> num -> num;
  leb : num -> num -> bool
}.

(** The laws of exact arithmetic that the totals' closed form relies on;
    binary64 multiplication does not distribute over addition. *)
Class NumLaws (num : Type) `{Num num} : Prop := {
  mul_1_r : forall x : num, mul x (of_int 1) = x;
  mul_comm : forall x y : num, mul x y = mul y x;
  mul_add_distr_l : forall x y z : num, mul x (add y z) = add (mul x y) (mul x z)
}.

(** [str(n)] for a Python [int], as the f-strings of the handlers use it. *)
Definition str (n : Z) : string := NilZero.string_of_int (Z.to_int n).

(** ** Exceptions and the store monad *)

(** What a handler can raise: FastAPI's [HTTPException], or any other
    exception, kept with its [str(e)]. *)
Inductive exn : Type :=
| HTTPException (status_code : Z) (detail : string)
| Exception (msg : string).

Inductive outcome (A : Type) : Type :=
| Return (a : A)
| Raise (e : exn).

Arguments Return {A} a.
Arguments Raise {A} e.

(** ** Integer ranges *)

(** The integers an SQLite INTEGER holds: the signed 64-bit range.  sqlite3
    raises [OverflowError] when a Python [int] outside it is bound to a
    [?]. *)
Definition in_int64 (n : Z) : bool := (- 2 ^ 63 <=? n) && (n <? 2 ^ 63).

(** The integers Python converts to [float] when an [int] meets a [float]
    in an arithmetic operation: those that round to a finite double.  For
    the others the operation raises [OverflowError]. *)
Definition fits_float (n : Z) : bool := Z.abs n <? 2 ^ 1024 - 2 ^ 970.

(** Whether [n] binds to a [?] compared with the integer key of a table
    whose keys are [keys].  Every key a table holds is an SQLite INTEGER, so
    an [n] that is the key of a row binds; any other [n] binds when it is in
    the signed 64-bit range. *)
Definition binds (keys : list Z) (n : Z) : bool :=
  in_int64 n || existsb (Z.eqb n) keys.

(** [str(e)] of the two [OverflowError]s. *)
Definition sqlite_overflow : exn :=
  Exception "Python int too large to convert to SQLite INTEGER".

Definition float_overflow : exn :=
  Exception "int too large to convert to float".

(** A computation on a store of type [St]: the outcome, and the store as
    the statements executed so far left it (also when it raises). *)
Definition Db (St A : Type) : Type := St -> outcome A * St.

Section Monad.

Context {St : Type}.

Definition ret {A} (a : A) : Db St A := fun s => (Return a, s).

Definition raise {A} (e : exn) : Db St A := fun s => (Raise e, s).

Definition bind {A B} (m : Db St A) (k : A -> Db St B) : Db St B :=
  fun s =>
    match m s with
    | (Return a, s') => k a s'
    | (Raise e, s') => (Raise e, s')
    end.

(** [cursor.execute("SELECT ...")] followed by a fetch. *)
Definition query {A} (q : St -> A) : Db St A := fun s => (Return (q s), s).

(** [cursor.execute] of an [INSERT] or a [DELETE]. *)
Definition execute (w : St -> St) : Db St unit := fun s => (Return tt, w s).

(** The binding of the int [n] by [cursor.execute(sql, (..., n, ...))],
    [keys] reading the keys [n] is compared with. *)
Definition bind_int (keys : St -> list Z) (n : Z) : Db St unit :=
  fun s =>
    if binds (keys s) n then (Return tt, s) else (Raise sqlite_overflow, s).

(** [try: ... except ...] *)
Definition try_except {A} (m : Db St A) (handler : exn -> Db St A) : Db St A :=
  fun s =>
    match m s with
    | (Return a, s') => (Return a, s')
    | (Raise e, s') => handler e s'
    end.

(** Modelled from the spec: [app.database.get_db] is not among the sources.
    The spec has every operation run as one transaction of the store,
    all-or-nothing: the block's writes are kept when it ends normally and
    undone when an exception leaves it.  A handler called inside the block
    ([get_invoice] at the end of [create_invoice]) sees the block's writes,
    since the spec has create return the full view of the new invoice. *)
Definition with_get_db {A} (body : Db St A) : Db St A :=
  fun s =>
    match body s with
    | (Return a, s') => (Return a, s')
    | (Raise e, _) => (Raise e, s)
    end.

(** [for x in xs: ...], the loop body threading the variables it
    assigns. *)
Fixpoint for_in {A V} (xs : list A) (body : V -> A -> Db St V) (vars : V)
  : Db St V :=
  match xs with
  | [] => ret vars
  | x :: xs' => bind (body vars x) (for_in xs' body)
  end.

End Monad.

Declare Scope db_scope.
Delimit Scope db_scope with db.
Notation "x <- m ;; k" := (bind m (fun x => k))
  (at level 100, m at next level, right associativity) : db_scope.
Notation "m ;;; k" := (bind m (fun _ => k))
  (at level 100, right associativity) : db_scope.

(** ** Rows, requests and responses *)

(** [date] values reach the store and the responses as ISO text. *)
Definition date := string.

Section Model.

Context {num : Type} `{Num num}.

(** Rows of table [clients] (SQL alias [c]). *)
Record ClientRow : Type := {
  c_id : Z;
  c_name : string;
  c_address : string;
  c_company_registration_no : string
}.

(** Rows of table [products] (alias [p]). *)
Record ProductRow : Type := {
  p_id : Z;
  p_name : string;
  p_price : num
}.

(** Rows of table [invoices] (alias [i]). *)
Record InvoiceRow : Type := {
  i_id : Z;
  i_invoice_no : string;
  i_issue_date : date;
  i_due_date : date;
  i_client_id : Z;
  i_tax : num;
  i_total : num;
  i_created_at : Z
}.

(** Rows of table [invoice_items] (alias [ii]). *)
Record InvoiceItemRow : Type := {
  ii_id : Z;
  ii_invoice_id : Z;
  ii_product_id : Z;
  ii_quantity : Z;
  ii_unit_price : num
}.

(** The store: each table is the list of its rows in insertion order. *)
Record Store : Type := {
  clients : list ClientRow;
  products : list ProductRow;
  invoices : list InvoiceRow;
  invoice_items : list InvoiceItemRow
}.

(** [class InvoiceItem(BaseModel)] *)
Record InvoiceItem : Type := {
  item_product_id : Z;
  item_quantity : Z
}.

(** [class InvoiceCreate(BaseModel)] *)
Record InvoiceCreate : Type := {
  invoice_no : string;
  issue_date : date;
  due_date : date;
  client_id : Z;
  items : list InvoiceItem;
  tax : num
}.

(** The [Field] constraints of the two request models: [quantity] is
    [gt=0], [tax] is [ge=0]. *)
Definition InvoiceItem_valid (item : InvoiceItem) : bool :=
  0 <? item_quantity item.

Definition InvoiceCreate_valid (invoice : InvoiceCreate) : bool :=
  forallb InvoiceItem_valid (items invoice) && leb (of_int 0) (tax invoice).

(** [class InvoiceItemResponse(BaseModel)] *)
Record InvoiceItemResponse : Type := {
  ir_id : Z;
  ir_product_id : Z;
  ir_product_name : string;
  ir_quantity : Z;
  ir_unit_price : num;
  ir_subtotal : num
}.

(** [class ClientResponse(BaseModel)] *)
Record ClientResponse : Type := {
  cr_id : Z;
  cr_name : string;
  cr_address : string;
  cr_company_registration_no : string
}.

(** [class InvoiceResponse(BaseModel)] *)
Record InvoiceResponse : Type := {
  r_id : Z;
  r_invoice_no : string;
  r_issue_date : date;
  r_due_date : date;
  r_client : ClientResponse;
  r_items : list InvoiceItemResponse;
  r_tax : num;
  r_subtotal : num;
  r_tax_amount : num;
  r_total : num
}.

(** [class InvoiceListItem(BaseModel)] *)
Record InvoiceListItem : Type := {
  li_id : Z;
  li_invoice_no : string;
  li_issue_date : date;
  li_due_date : date;
  li_client_name : string;
  li_total : num
}.

(** The dictionaries the first loop of [create_invoice] appends to
    [validated_items]. *)
Record ValidatedItem : Type := {
  v_product_id : Z;
  v_product_name : string;
  v_quantity : Z;
  v_unit_price : num;
  v_subtotal : num
}.


(** ** Queries *)

(** [cursor.fetchone()]: the first row of the result, [None] when the
    result is empty. *)
Definition fetchone {A} (rows : list A) : option A := hd_error rows.

(** [FROM l JOIN r ON on]: every pair of rows that [on] relates, the left
    table in the outer loop. *)
Definition join {A B} (on : A -> B -> bool) (l : list A) (r : list B)
  : list (A * B) :=
  flat_map (fun a => map (pair a) (filter (on a) r)) l.

(** Modelled from the spec: the declaration of the tables is not among the
    sources.  [id] is each table's integer key, which the store allocates on
    insert as SQLite allocates row ids: one more than the largest [id] of the
    table, and 1 in an empty table ([cursor.lastrowid] reads it back). *)
Definition next_rowid (ids : list Z) : Z :=
  match ids with
  | [] => 1
  | id :: ids' => 1 + fold_right Z.max id ids'
  end.

(** [ORDER BY i.created_at DESC] over the joined rows: a stable insertion
    sort, so rows of equal [created_at] (an order SQL leaves open) keep
    their table order. *)
Fixpoint insert_created_at_desc (row : InvoiceRow * ClientRow)
  (rows : list (InvoiceRow * ClientRow)) : list (InvoiceRow * ClientRow) :=
  match rows with
  | [] => [row]
  | row' :: rows' =>
      if i_created_at (fst row) <? i_created_at (fst row')
      then row' :: insert_created_at_desc row rows'
      else row :: rows
  end.

Definition order_by_created_at_desc (rows : list (InvoiceRow * ClientRow))
  : list (InvoiceRow * ClientRow) :=
  fold_right insert_created_at_desc [] rows.

Definition set_invoices (s : Store) (rows : list InvoiceRow) : Store :=
  {| clients := clients s; products := products s;
     invoices := rows; invoice_items := invoice_items s |}.

Definition set_invoice_items (s : Store) (rows : list InvoiceItemRow) : Store :=
  {| clients := clients s; products := products s;
     invoices := invoices s; invoice_items := rows |}.

(** [SELECT id FROM clients WHERE id = ?], once [id] is bound (the
    handlers run [bind_int] before each first use of an int in a query). *)
Definition select_client_id (id : Z) (s : Store) : list Z :=
  map c_id (filter (fun c => c_id c =? id) (clients s)).

(** [SELECT id FROM invoices WHERE invoice_no = ?] *)
Definition select_invoice_id_by_no (no : string) (s : Store) : list Z :=
  map i_id (filter (fun i => String.eqb (i_invoice_no i) no) (invoices s)).

(** [SELECT id FROM invoices WHERE id = ?], once [id] is bound. *)
Definition select_invoice_id (id : Z) (s : Store) : list Z :=
  map i_id (filter (fun i => i_id i =? id) (invoices s)).

(** [SELECT id, name, price FROM products WHERE id = ?], once [id] is
    bound. *)
Definition select_product (id : Z) (s : Store) : list ProductRow :=
  filter (fun p => p_id p =? id) (products s).

(** [SELECT price FROM products WHERE id = ?] *)
Definition select_product_price (id : Z) (s : Store) : list num :=
  map p_price (filter (fun p => p_id p =? id) (products s)).

(** [FROM invoices i JOIN clients c ON i.client_id = c.id] *)
Definition invoices_join_clients (s : Store) : list (InvoiceRow * ClientRow) :=
  join (fun i c => i_client_id i =? c_id c) (invoices s) (clients s).

(** [FROM invoice_items ii JOIN products p ON ii.product_id = p.id] *)
Definition items_join_products (s : Store) : list (InvoiceItemRow * ProductRow) :=
  join (fun ii p => ii_product_id ii =? p_id p) (invoice_items s) (products s).

(** The first query of [get_invoice]: the joined row [WHERE i.id = ?],
    once [id] is bound. *)
Definition select_invoice (id : Z) (s : Store) : list (InvoiceRow * ClientRow) :=
  filter (fun ic => i_id (fst ic) =? id) (invoices_join_clients s).

(** The second query of [get_invoice]: the joined item rows
    [WHERE ii.invoice_id = ?]. *)
Definition select_items (id : Z) (s : Store) : list (InvoiceItemRow * ProductRow) :=
  filter (fun iip => ii_invoice_id (fst iip) =? id) (items_join_products s).

(** [INSERT INTO invoices (invoice_no, issue_date, due_date, client_id, tax,
    total)], returning [cursor.lastrowid].

    Modelled from the spec: the statement writes neither [id] nor
    [created_at]; with the table's declaration absent, [id] is
    [next_rowid] and [created_at] is the spec's creation time, the time
    [now] at which the store inserts the row. *)
Definition insert_invoice (now : Z) (invoice : InvoiceCreate) (total : num)
  : Db Store Z :=
  fun s =>
    let id := next_rowid (map i_id (invoices s)) in
    (Return id,
     set_invoices s
       (invoices s ++
        [{| i_id := id;
            i_invoice_no := invoice_no invoice;
            i_issue_date := issue_date invoice;
            i_due_date := due_date invoice;
            i_client_id := client_id invoice;
            i_tax := tax invoice;
            i_total := total;
            i_created_at := now |}])).

(** [INSERT INTO invoice_items (invoice_id, product_id, quantity,
    unit_price)], once its ints are bound ([store_item] binds
    [quantity]). *)
Definition insert_invoice_item (invoice_id product_id quantity : Z)
  (unit_price : num) : Db Store unit :=
  execute (fun s =>
    set_invoice_items s
      (invoice_items s ++
       [{| ii_id := next_rowid (map ii_id (invoice_items s));
           ii_invoice_id := invoice_id;
           ii_product_id := product_id;
           ii_quantity := quantity;
           ii_unit_price := unit_price |}])).

(** [DELETE FROM invoice_items WHERE invoice_id = ?] *)
Definition delete_items_of (invoice_id : Z) : Db Store unit :=
  execute (fun s =>
    set_invoice_items s
      (filter (fun ii => negb (ii_invoice_id ii =? invoice_id)) (invoice_items s))).

(** [DELETE FROM invoices WHERE id = ?] *)
Definition delete_invoice_row (invoice_id : Z) : Db Store unit :=
  execute (fun s =>
    set_invoices s (filter (fun i => negb (i_id i =? invoice_id)) (invoices s))).

(** ** The handlers *)

(** [except HTTPException: raise] then
    [except Exception as e: raise HTTPException(500, ...)]. *)
Definition except_http {A} (e : exn) : Db Store A :=
  match e with
  | HTTPException _ _ => raise e
  | Exception msg => raise (HTTPException 500 ("Database error: " ++ msg))
  end.

(** [str(e)]; for an [HTTPException] it is ["{status_code}: {detail}"]. *)
Definition str_exn (e : exn) : string :=
  match e with
  | HTTPException status_code detail => str status_code ++ ": " ++ detail
  | Exception msg => msg
  end.

(** The only clause of [list_invoices]:
    [except Exception as e: raise HTTPException(500, ...)]. *)
Definition except_any {A} (e : exn) : Db Store A :=
  raise (HTTPException 500 ("Database error: " ++ str_exn e)).

(** The status of the HTTP response: the route's [status_code] for a
    returned value, the exception's own otherwise. *)
Definition response_status {A} (success : Z) (o : outcome A) : Z :=
  match o with
  | Return _ => success
  | Raise (HTTPException status_code _) => status_code
  | Raise (Exception _) => 500
  end.

(** The loop of [get_invoice] that builds [items] and [subtotal].  The
    quantity it multiplies was read from an INTEGER column, so it converts
    to [float]. *)
Definition build_items (items_rows : list (InvoiceItemRow * ProductRow))
  : list InvoiceItemResponse * num :=
  fold_left
    (fun (vars : list InvoiceItemResponse * num) item_row =>
       let '(items, subtotal) := vars in
       let '(ii, p) := item_row in
       let item_subtotal := mul (ii_unit_price ii) (of_int (ii_quantity ii)) in
       (items ++
        [{| ir_id := ii_id ii;
            ir_product_id := ii_product_id ii;
            ir_product_name := p_name p;
            ir_quantity := ii_quantity ii;
            ir_unit_price := ii_unit_price ii;
            ir_subtotal := item_subtotal |}],
        add subtotal item_subtotal))
    items_rows ([], of_int 0).

(** The part of [get_invoice] under [# Build response]: the loop over
    [items_rows], [tax_amount], and the returned dictionary. *)
Definition build_response (invoice_row : InvoiceRow * ClientRow)
  (items_rows : list (InvoiceItemRow * ProductRow)) : InvoiceResponse :=
  let '(i, c) := invoice_row in
  let '(items, subtotal) := build_items items_rows in
  let tax_amount := mul subtotal (div (i_tax i) (of_int 100)) in
  {| r_id := i_id i;
     r_invoice_no := i_invoice_no i;
     r_issue_date := i_issue_date i;
     r_due_date := i_due_date i;
     r_client :=
       {| cr_id := c_id c;
          cr_name := c_name c;
          cr_address := c_address c;
          cr_company_registration_no := c_company_registration_no c |};
     r_items := items;
     r_tax := i_tax i;
     r_subtotal := subtotal;
     r_tax_amount := tax_amount;
     r_total := i_total i |}.

(** The block under [with get_db() as conn] of [get_invoice].  Its two
    queries bind the same [invoice_id]; the second binding cannot fail where
    the first did not. *)
Definition get_invoice_block (invoice_id : Z) : Db Store InvoiceResponse :=
  (bind_int (fun s => map i_id (invoices s)) invoice_id ;;;
   invoice_row <- query (fun s => fetchone (select_invoice invoice_id s)) ;;
   match invoice_row with
   | None => raise (HTTPException 404 "Invoice not found")
   | Some invoice_row =>
       items_rows <- query (select_items invoice_id) ;;
       ret (build_response invoice_row items_rows)
   end)%db.

(** [GET /invoices/{invoice_id}] *)
Definition get_invoice (invoice_id : Z) : Db Store InvoiceResponse :=
  try_except (with_get_db (get_invoice_block invoice_id)) except_http.

(** The body of the first loop of [create_invoice], over the variables
    [subtotal] and [validated_items].  The product
    [product["price"] * item.quantity] converts the quantity to [float]
    and raises [OverflowError] when it does not fit. *)
Definition validate_item (vars : num * list ValidatedItem) (item : InvoiceItem)
  : Db Store (num * list ValidatedItem) :=
  let '(subtotal, validated_items) := vars in
  (bind_int (fun s => map p_id (products s)) (item_product_id item) ;;;
   product <- query (fun s => fetchone (select_product (item_product_id item) s)) ;;
   match product with
   | None =>
       raise (HTTPException 404
                ("Product with id " ++ str (item_product_id item) ++ " not found"))
   | Some product =>
       if fits_float (item_quantity item) then
         let item_subtotal := mul (p_price product) (of_int (item_quantity item)) in
         ret (add subtotal item_subtotal,
              validated_items ++
              [{| v_product_id := item_product_id item;
                  v_product_name := p_name product;
                  v_quantity := item_quantity item;
                  v_unit_price := p_price product;
                  v_subtotal := item_subtotal |}])
       else raise float_overflow
   end)%db.

(** The body of the second loop of [create_invoice].  Subscripting the
    [None] of an empty result raises a [TypeError].  Of the ints the INSERT
    binds, [invoice_id] is the key just allocated and [product_id] was bound
    by the first loop; [quantity] is bound here for the first time, to an
    INTEGER column. *)
Definition store_item (invoice_id : Z) (_ : unit) (item : InvoiceItem)
  : Db Store unit :=
  (row <- query (fun s => fetchone (select_product_price (item_product_id item) s)) ;;
   match row with
   | None => raise (Exception "'NoneType' object is not subscriptable")
   | Some unit_price =>
       bind_int (fun _ => []) (item_quantity item) ;;;
       insert_invoice_item invoice_id (item_product_id item)
         (item_quantity item) unit_price
   end)%db.

(** The block under [with get_db() as conn] of [create_invoice]. *)
Definition create_invoice_block (now : Z) (invoice : InvoiceCreate)
  : Db Store InvoiceResponse :=
       (bind_int (fun s => map c_id (clients s)) (client_id invoice) ;;;
        client <- query (fun s => fetchone (select_client_id (client_id invoice) s)) ;;
        match client with
        | None =>
            raise (HTTPException 404
                     ("Client with id " ++ str (client_id invoice) ++ " not found"))
        | Some _ =>
            existing <- query (fun s =>
                          fetchone (select_invoice_id_by_no (invoice_no invoice) s)) ;;
            match existing with
            | Some _ =>
                raise (HTTPException 400
                         ("Invoice number " ++ invoice_no invoice ++ " already exists"))
            | None =>
                vars <- for_in (items invoice) validate_item (of_int 0, []) ;;
                let '(subtotal, validated_items) := vars in
                let tax_amount := mul subtotal (div (tax invoice) (of_int 100)) in
                let total := add subtotal tax_amount in
                invoice_id <- insert_invoice now invoice total ;;
                for_in (items invoice) (store_item invoice_id) tt ;;;
                get_invoice invoice_id
            end
        end)%db.

(** [POST /invoices] *)
Definition create_invoice (now : Z) (invoice : InvoiceCreate)
  : Db Store InvoiceResponse :=
  try_except (with_get_db (create_invoice_block now invoice)) except_http.

(** The block under [with get_db() as conn] of [list_invoices]. *)
Definition list_invoices_block : Db Store (list InvoiceListItem) :=
       (rows <- query (fun s => order_by_created_at_desc (invoices_join_clients s)) ;;
        ret (map (fun row : InvoiceRow * ClientRow =>
                    let '(i, c) := row in
                    {| li_id := i_id i;
                       li_invoice_no := i_invoice_no i;
                       li_issue_date := i_issue_date i;
                       li_due_date := i_due_date i;
                       li_client_name := c_name c;
                       li_total := i_total i |})
                 rows))%db.

(** [GET /invoices] *)
Definition list_invoices : Db Store (list InvoiceListItem) :=
  try_except (with_get_db list_invoices_block) except_any.

(** The block under [with get_db() as conn] of [delete_invoice].  The two
    DELETEs bind the [invoice_id] the SELECT bound. *)
Definition delete_invoice_block (invoice_id : Z) : Db Store unit :=
       (bind_int (fun s => map i_id (invoices s)) invoice_id ;;;
        row <- query (fun s => fetchone (select_invoice_id invoice_id s)) ;;
        match row with
        | None => raise (HTTPException 404 "Invoice not found")
        | Some _ =>
            delete_items_of invoice_id ;;;
            delete_invoice_row invoice_id ;;;
            ret tt
        end)%db.

(** [DELETE /invoices/{invoice_id}] *)
Definition delete_invoice (invoice_id : Z) : Db Store unit :=
  try_except (with_get_db (delete_invoice_block invoice_id)) except_http.

End Model.

Arguments ProductRow : clear implicits.
Arguments InvoiceRow : clear implicits.
Arguments InvoiceItemRow : clear implicits.
Arguments Store : clear implicits.
Arguments InvoiceCreate : clear implicits.
Arguments InvoiceItemResponse : clear implicits.
Arguments InvoiceResponse : clear implicits.
Arguments InvoiceListItem : clear implicits.
Arguments ValidatedItem : clear implicits.

(** ** Constraints of the schema, and the quantities the properties speak of *)

Section Schema.

Context {num : Type} `{Num num}.

Fixpoint nodupb {A} (eqb : A -> A -> bool) (l : list A) : bool :=
  match l with
  | [] => true
  | x :: l' => negb (existsb (eqb x) l') && nodupb eqb l'
  end.

(** Modelled from the spec: the declaration of the tables is not among the
    sources.  The spec's data model makes [id] the key of every table and
    [invoice_no] unique, and has every item row belong to an invoice row
    (items are created and deleted with their invoice).  Clients and
    products may vanish later: no constraint ties rows to them. *)
Definition wf_store (s : Store num) : bool :=
  nodupb Z.eqb (map c_id (clients s))
  && nodupb Z.eqb (map p_id (products s))
  && nodupb Z.eqb (map i_id (invoices s))
  && nodupb Z.eqb (map ii_id (invoice_items s))
  && nodupb String.eqb (map i_invoice_no (invoices s))
  && forallb (fun ii => existsb (Z.eqb (ii_invoice_id ii)) (map i_id (invoices s)))
       (invoice_items s).

(** The same constraints, as propositions. *)
Record store_ok (s : Store num) : Prop := {
  ok_clients : NoDup (map c_id (clients s));
  ok_products : NoDup (map p_id (products s));
  ok_invoices : NoDup (map i_id (invoices s));
  ok_invoice_items : NoDup (map ii_id (invoice_items s));
  ok_invoice_no : NoDup (map i_invoice_no (invoices s));
  ok_items_owned :
    forall ii, In ii (invoice_items s) ->
               In (ii_invoice_id ii) (map i_id (invoices s))
}.

(** Python's running sum [t = 0; for x in xs: t += x]. *)
Definition sum (xs : list num) : num := fold_left add xs (of_int 0).

(** The product row a request item refers to, if there is one. *)
Definition product_of (s : Store num) (item : InvoiceItem) : option (ProductRow num) :=
  fetchone (select_product (item_product_id item) s).

Definition product_exists (s : Store num) (item : InvoiceItem) : bool :=
  match product_of s item with Some _ => true | None => false end.

(** One round of the first loop of [create_invoice], for an item whose
    product exists: the running subtotal after it. *)
Definition charge (s : Store num) (subtotal : num) (item : InvoiceItem) : num :=
  match product_of s item with
  | Some p => add subtotal (mul (p_price p) (of_int (item_quantity item)))
  | None => subtotal
  end.

(** The detail of the 404 that [create_invoice] raises for [item]. *)
Definition product_not_found (item : InvoiceItem) : exn :=
  HTTPException 404
    ("Product with id " ++ str (item_product_id item) ++ " not found").

(** The detail of the 404 and of the 400 that [create_invoice] raises
    before its loops. *)
Definition client_not_found (invoice : InvoiceCreate num) : exn :=
  HTTPException 404
    ("Client with id " ++ str (client_id invoice) ++ " not found").

Definition invoice_no_exists (invoice : InvoiceCreate num) : exn :=
  HTTPException 400
    ("Invoice number " ++ invoice_no invoice ++ " already exists").

(** What [create_invoice] computes and inserts when its checks pass: the
    subtotal and total of the first loop, the new invoice row, and the item
    rows of the second loop, each with the next free [id] of the table as
    the rows before it left it. *)
Definition subtotal_of (s : Store num) (invoice : InvoiceCreate num) : num :=
  fold_left (charge s) (items invoice) (of_int 0).

Definition total_of (s : Store num) (invoice : InvoiceCreate num) : num :=
  add (subtotal_of s invoice)
      (mul (subtotal_of s invoice) (div (tax invoice) (of_int 100))).

Definition new_invoice_id (s : Store num) : Z := next_rowid (map i_id (invoices s)).

Definition new_invoice_row (now : Z) (invoice : InvoiceCreate num) (s : Store num)
  : InvoiceRow num :=
  {| i_id := new_invoice_id s;
     i_invoice_no := invoice_no invoice;
     i_issue_date := issue_date invoice;
     i_due_date := due_date invoice;
     i_client_id := client_id invoice;
     i_tax := tax invoice;
     i_total := total_of s invoice;
     i_created_at := now |}.

Fixpoint new_item_rows (ps : list (ProductRow num)) (invoice_id : Z)
  (table : list (InvoiceItemRow num)) (its : list InvoiceItem)
  : list (InvoiceItemRow num) :=
  match its with
  | [] => []
  | item :: its' =>
      match hd_error (map p_price (filter (fun p => p_id p =? item_product_id item) ps)) with
      | None => []
      | Some unit_price =>
          let row := {| ii_id := next_rowid (map ii_id table);
                        ii_invoice_id := invoice_id;
                        ii_product_id := item_product_id item;
                        ii_quantity := item_quantity item;
                        ii_unit_price := unit_price |} in
          row :: new_item_rows ps invoice_id (table ++ [row]) its'
      end
  end.

Definition created (now : Z) (invoice : InvoiceCreate num) (s : Store num)
  : Store num :=
  {| clients := clients s;
     products := products s;
     invoices := invoices s ++ [new_invoice_row now invoice s];
     invoice_items :=
       invoice_items s ++
       new_item_rows (products s) (new_invoice_id s) (invoice_items s) (items invoice) |}.

(** How a request item and the joined item row stored for it correspond:
    the row carries the item's product and quantity and the price of the
    product the item was charged at. *)
Definition stored_for (s : Store num) (invoice_id : Z) (item : InvoiceItem)
  (row : InvoiceItemRow num * ProductRow num) : Prop :=
  ii_invoice_id (fst row) = invoice_id
  /\ ii_product_id (fst row) = item_product_id item
  /\ ii_quantity (fst row) = item_quantity item
  /\ product_of s item = Some (snd row)
  /\ ii_unit_price (fst row) = p_price (snd row).

(** Whether every quantity of a request's items is in the signed 64-bit
    range. *)
Definition quantities_in_int64 (its : list InvoiceItem) : bool :=
  forallb (fun item => in_int64 (item_quantity item)) its.

(** Whether every quantity of the items converts to [float]. *)
Definition quantities_fit_float (its : list InvoiceItem) : bool :=
  forallb (fun item => fits_float (item_quantity item)) its.

(** What an exception is once the [except] clauses of [create_invoice],
    [get_invoice] and [delete_invoice] have seen it. *)
Definition as_http (e : exn) : exn :=
  match e with
  | HTTPException _ _ => e
  | Exception msg => HTTPException 500 ("Database error: " ++ msg)
  end.

(** What one round of the first loop of [create_invoice] raises, if it
    raises: the product id does not bind, the product is missing, or the
    quantity does not convert to [float]. *)
Definition item_failure (s : Store num) (item : InvoiceItem) : option exn :=
  if binds (map p_id (products s)) (item_product_id item) then
    if product_exists s item then
      if fits_float (item_quantity item) then None else Some float_overflow
    else Some (product_not_found item)
  else Some sqlite_overflow.

Fixpoint items_failure (s : Store num) (its : list InvoiceItem) : option exn :=
  match its with
  | [] => None
  | item :: its' =>
      match item_failure s item with
      | Some e => Some e
      | None => items_failure s its'
      end
  end.

(** What [create_invoice] raises before its first INSERT, if it raises
    there: its checks, in their order. *)
Definition checks_failure (s : Store num) (invoice : InvoiceCreate num) : option exn :=
  if binds (map c_id (clients s)) (client_id invoice) then
    if existsb (Z.eqb (client_id invoice)) (map c_id (clients s)) then
      if existsb (String.eqb (invoice_no invoice)) (map i_invoice_no (invoices s))
      then Some (invoice_no_exists invoice)
      else items_failure s (items invoice)
    else Some (client_not_found invoice)
  else Some sqlite_overflow.

(** What [create_invoice] raises, if it raises: a failed check, or a
    quantity that does not bind to the INSERT of its item row. *)
Definition create_failure (s : Store num) (invoice : InvoiceCreate num) : option exn :=
  match checks_failure s invoice with
  | Some e => Some e
  | None =>
      if quantities_in_int64 (items invoice) then None else Some sqlite_overflow
  end.

(** Whether the ints of a request are all in the signed 64-bit range. *)
Definition request_in_int64 (invoice : InvoiceCreate num) : bool :=
  in_int64 (client_id invoice)
  && forallb (fun item => in_int64 (item_product_id item)) (items invoice)
  && quantities_in_int64 (items invoice).

(** The price a request item is charged at in store [s]. *)
Definition price_of (s : Store num) (item : InvoiceItem) : option num :=
  fetchone (select_product_price (item_product_id item) s).

(** The stored row of invoice [id], if there is one. *)
Definition invoice_row (id : Z) (s : Store num) : option (InvoiceRow num) :=
  find (fun i => i_id i =? id) (invoices s).

(** The stored item rows of invoice [id]. *)
Definition item_rows (id : Z) (s : Store num) : list (InvoiceItemRow num) :=
  filter (fun ii => ii_invoice_id ii =? id) (invoice_items s).

(** The response item [get_invoice] builds from one joined item row. *)
Definition item_view (row : InvoiceItemRow num * ProductRow num)
  : InvoiceItemResponse num :=
  {| ir_id := ii_id (fst row);
     ir_product_id := ii_product_id (fst row);
     ir_product_name := p_name (snd row);
     ir_quantity := ii_quantity (fst row);
     ir_unit_price := ii_unit_price (fst row);
     ir_subtotal := mul (ii_unit_price (fst row)) (of_int (ii_quantity (fst row))) |}.

(** The 404 of [get_invoice] and [delete_invoice]. *)
Definition invoice_not_found : exn := HTTPException 404 "Invoice not found".

(** The 500s the handlers make of the two [OverflowError]s. *)
Definition int_too_large : exn :=
  HTTPException 500
    "Database error: Python int too large to convert to SQLite INTEGER".

Definition float_too_large : exn :=
  HTTPException 500 "Database error: int too large to convert to float".

(** What [get_invoice] and [delete_invoice] raise for an id that no invoice
    row has: 404 when the id binds, 500 when it does not. *)
Definition no_invoice (id : Z) : exn :=
  if in_int64 id then invoice_not_found else int_too_large.

(** The store [delete_invoice] leaves: the item rows of the invoice
    deleted first, then its row. *)
Definition deleted (id : Z) (s : Store num) : Store num :=
  snd (delete_invoice_row id (snd (delete_items_of id s))).

(** The summary [list_invoices] gives of a joined row. *)
Definition summary (row : InvoiceRow num * ClientRow) : InvoiceListItem num :=
  {| li_id := i_id (fst row);
     li_invoice_no := i_invoice_no (fst row);
     li_issue_date := i_issue_date (fst row);
     li_due_date := i_due_date (fst row);
     li_client_name := c_name (snd row);
     li_total := i_total (fst row) |}.

(** The summary that corresponds to a full invoice response. *)
Definition summary_of_response (r : InvoiceResponse num) : InvoiceListItem num :=
  {| li_id := r_id r;
     li_invoice_no := r_invoice_no r;
     li_issue_date := r_issue_date r;
     li_due_date := r_due_date r;
     li_client_name := cr_name (r_client r);
     li_total := r_total r |}.

(** Newest first: [b] may follow [a] in the listing. *)
Definition created_at_desc (a b : InvoiceRow num * ClientRow) : Prop :=
  i_created_at (fst b) <= i_created_at (fst a).

(** A joined item row after an outside change [f] of its product row. *)
Definition rewritten (f : ProductRow num -> ProductRow num)
  (row : InvoiceItemRow num * ProductRow num) : InvoiceItemRow num * ProductRow num :=
  (fst row, f (snd row)).

(** An outside change to table [products] (the service itself never writes
    it): every row is rewritten by [f]. *)
Definition update_products (f : ProductRow num -> ProductRow num) (s : Store num)
  : Store num :=
  {| clients := clients s; products := map f (products s);
     invoices := invoices s; invoice_items := invoice_items s |}.

(** Whether the client row, respectively the product row, that a stored row
    refers to is there. *)
Definition client_present (s : Store num) (i : InvoiceRow num) : bool :=
  existsb (Z.eqb (i_client_id i)) (map c_id (clients s)).

Definition product_present (s : Store num) (ii : InvoiceItemRow num) : bool :=
  existsb (Z.eqb (ii_product_id ii)) (map p_id (products s)).

(** The total that item rows and a tax rate give, computed as
    [create_invoice] computes it. *)
Definition total_from (rows : list (InvoiceItemRow num)) (tax_rate : num) : num :=
  let subtotal :=
    sum (map (fun ii => mul (ii_unit_price ii) (of_int (ii_quantity ii))) rows) in
  add subtotal (mul subtotal (div tax_rate (of_int 100))).

(** Every stored invoice's [total] column agrees with its stored item rows
    and tax rate. *)
Definition totals_ok (s : Store num) : Prop :=
  forall i, In i (invoices s) ->
            i_total i = total_from (item_rows (i_id i) s) (i_tax i).

End Schema.

(** ** Exact rational arithmetic, and the data of the examples *)

#[export] Instance Num_Qc : Num Qc := {|
  of_int := fun n => Q2Qc (inject_Z n);
  add := Qcplus;
  mul := Qcmult;
  div := Qcdiv;
  leb := fun x y => Qle_bool (this x) (this y)
|}.

Module Examples.

Definition acme : ClientRow :=
  {| c_id := 1; c_name := "Acme"; c_address := "1 Main St";
     c_company_registration_no := "REG-1" |}.

Definition widget : ProductRow Qc :=
  {| p_id := 1; p_name := "Widget"; p_price := of_int 10 |}.

Definition gadget : ProductRow Qc :=
  {| p_id := 2; p_name := "Gadget"; p_price := of_int 4 |}.

(** One client, two products, no invoice. *)
Definition db0 : Store Qc :=
  {| clients := [acme]; products := [widget; gadget];
     invoices := []; invoice_items := [] |}.

Definition request (no : string) (its : list InvoiceItem) : InvoiceCreate Qc :=
  {| invoice_no := no; issue_date := "2024-01-01"; due_date := "2024-01-31";
     client_id := 1; items := its; tax := of_int 10 |}.

(** The request of the spec's example: three widgets at 10% tax. *)
Definition inv1 : InvoiceCreate Qc :=
  request "INV-1" [{| item_product_id := 1; item_quantity := 3 |}].

Definition inv2 : InvoiceCreate Qc :=
  request "INV-2" [{| item_product_id := 2; item_quantity := 5 |};
                   {| item_product_id := 1; item_quantity := 2 |}].

Definition inv3 : InvoiceCreate Qc := request "INV-3" [].

Definition inv4 : InvoiceCreate Qc :=
  request "INV-4" [{| item_product_id := 1; item_quantity := 1 |}].

(** [inv1] for a client that does not exist. *)
Definition inv_no_client : InvoiceCreate Qc :=
  {| invoice_no := "INV-9"; issue_date := "2024-01-01"; due_date := "2024-01-31";
     client_id := 7; items := items inv1; tax := of_int 10 |}.

(** A request whose second and third items name products that do not
    exist. *)
Definition inv_no_product : InvoiceCreate Qc :=
  request "INV-8" [{| item_product_id := 1; item_quantity := 2 |};
                   {| item_product_id := 5; item_quantity := 1 |};
                   {| item_product_id := 6; item_quantity := 1 |}].

(** The store after [inv1] was created at time 100, then [inv2] at time
    101, [inv3] at time 102 and [inv4] at time 103, and the four
    responses. *)
Definition db1 : Store Qc := snd (create_invoice 100 inv1 db0).
Definition db2 : Store Qc := snd (create_invoice 101 inv2 db1).
Definition db3 : Store Qc := snd (create_invoice 102 inv3 db2).
Definition db4 : Store Qc := snd (create_invoice 103 inv4 db3).

Definition r1 : InvoiceResponse Qc :=
  build_response (new_invoice_row 100 inv1 db0, acme) (select_items 1 db1).
Definition r2 : InvoiceResponse Qc :=
  build_response (new_invoice_row 101 inv2 db1, acme) (select_items 2 db2).
Definition r3 : InvoiceResponse Qc :=
  build_response (new_invoice_row 102 inv3 db2, acme) (select_items 3 db3).
Definition r4 : InvoiceResponse Qc :=
  build_response (new_invoice_row 103 inv4 db3, acme) (select_items 4 db4).

(** [db1] after table [products] was emptied. *)
Definition db1_no_products : Store Qc :=
  {| clients := clients db1; products := [];
     invoices := invoices db1; invoice_items := invoice_items db1 |}.

(** [db1] with the [total] column of its invoice overwritten. *)
Definition db1_total_99 : Store Qc :=
  set_invoices db1
    (map (fun i => {| i_id := i_id i; i_invoice_no := i_invoice_no i;
                      i_issue_date := i_issue_date i; i_due_date := i_due_date i;
                      i_client_id := i_client_id i; i_tax := i_tax i;
                      i_total := of_int 99; i_created_at := i_created_at i |})
         (invoices db1)).

(** Renaming and repricing every product. *)
Definition reprice (p : ProductRow Qc) : ProductRow Qc :=
  {| p_id := p_id p; p_name := (p_name p ++ " v2")%string;
     p_price := add (p_price p) (of_int 1) |}.

(** [db2] after table [clients] was emptied. *)
Definition db2_no_clients : Store Qc :=
  {| clients := []; products := products db2;
     invoices := invoices db2; invoice_items := invoice_items db2 |}.

(** [inv1] under another number, and a request that reuses the number of
    [inv1]. *)
Definition inv5 : InvoiceCreate Qc :=
  request "INV-5" [{| item_product_id := 2; item_quantity := 7 |}].

Definition inv1_again : InvoiceCreate Qc :=
  request "INV-1" [{| item_product_id := 9; item_quantity := 1 |}].

(** The stored row of [inv1], and what [get_invoice] answers for it once
    table [products] was emptied. *)
Definition row1 : InvoiceRow Qc := new_invoice_row 100 inv1 db0.

Definition r1_no_products : InvoiceResponse Qc :=
  build_response (row1, acme) (select_items 1 db1_no_products).

(** [db2] after the invoice of [inv1] was deleted. *)
Definition db2_without_1 : Store Qc := snd (delete_invoice 1 db2).

End Examples.

(** ** Binary64 arithmetic: Python's [float] *)

(** [float(n)]: the double nearest to [n], ties to even. *)
Definition float_of_int (n : Z) : PrimFloat.float :=
  FloatOps.SF2Prim (SpecFloat.binary_normalize FloatOps.prec FloatOps.emax n 0 false).

#[export] Instance Num_float : Num PrimFloat.float := {|
  of_int := float_of_int;
  add := PrimFloat.add;
  mul := PrimFloat.mul;
  div := PrimFloat.div;
  leb := PrimFloat.leb
|}.

Module FloatExamples.

(** The double that Python writes [0.1]. *)
Definition dime : ProductRow PrimFloat.float :=
  {| p_id := 1; p_name := "Dime"; p_price := div (of_int 1) (of_int 10) |}.

Definition fdb0 : Store PrimFloat.float :=
  {| clients := [Examples.acme]; products := [dime];
     invoices := []; invoice_items := [] |}.

Definition frequest (its : list InvoiceItem) (rate : PrimFloat.float)
  : InvoiceCreate PrimFloat.float :=
  {| invoice_no := "INV-1"; issue_date := "2024-01-01"; due_date := "2024-01-31";
     client_id := 1; items := its; tax := rate |}.

(** One dime at 20% tax. *)
Definition finv1 : InvoiceCreate PrimFloat.float :=
  frequest [{| item_product_id := 1; item_quantity := 1 |}] (of_int 20).

(** No items, at 10% tax and at a tax of [float("inf")], which is [>= 0]. *)
Definition finv_empty : InvoiceCreate PrimFloat.float := frequest [] (of_int 10).

Definition finv_inf : InvoiceCreate PrimFloat.float := frequest [] PrimFloat.infinity.

End FloatExamples.

(** Requests and ids outside the ranges the store and [float] take. *)
Module Overflow.

Import Examples.

(** [2 ** 63] widgets: a quantity that converts to [float] and does not
    bind to an SQLite INTEGER. *)
Definition inv_quantity_2_63 : InvoiceCreate Qc :=
  request "INV-1" [{| item_product_id := 1; item_quantity := 2 ^ 63 |}].

(** [2 ** 1024] dimes: a quantity that does not convert to [float]. *)
Definition inv_quantity_2_1024 : InvoiceCreate PrimFloat.float :=
  FloatExamples.frequest [{| item_product_id := 1; item_quantity := 2 ^ 1024 |}]
    (of_int 10).

(** A client id that does not bind. *)
Definition inv_client_2_63 : InvoiceCreate Qc :=
  {| invoice_no := "INV-1"; issue_date := "2024-01-01"; due_date := "2024-01-31";
     client_id := 2 ^ 63; items := items inv1; tax := of_int 10 |}.

(** A product id that does not bind, and a request whose first item has a
    quantity that does not convert, before an item whose product is
    missing. *)
Definition inv_product_2_63 : InvoiceCreate Qc :=
  request "INV-1" [{| item_product_id := 2 ^ 63; item_quantity := 1 |}].

Definition inv_huge_then_missing : InvoiceCreate PrimFloat.float :=
  FloatExamples.frequest [{| item_product_id := 1; item_quantity := 2 ^ 1024 |};
                          {| item_product_id := 5; item_quantity := 1 |}]
    (of_int 10).

End Overflow.

(** Three create requests served at one and the same time. *)
Module SameTime.

Import Examples.

Definition tdb1 : Store Qc := snd (create_invoice 100 inv1 db0).
Definition tdb2 : Store Qc := snd (create_invoice 100 inv2 tdb1).
Definition tdb3 : Store Qc := snd (create_invoice 100 inv3 tdb2).

End SameTime.

(** * Properties *)

#[export] Instance NumLaws_Qc : NumLaws Qc.
Proof.
  split; cbn [of_int add mul Num_Qc]; intros.
  - apply Qcmult_1_r.
  - apply Qcmult_comm.
  - apply Qcmult_plus_distr_r.
Qed.

(** ** Selections by key *)

Lemma fold_max_upper (l : list Z) (b x : Z) :
  b = x \/ In x l -> x <= fold_right Z.max b l.
Proof.
  induction l as [|c l IH]; cbn [fold_right In].
  - intros [E|[]]. lia.
  - intros [E|[E|Hin]].
    + pose proof (IH (or_introl E)). lia.
    + lia.
    + pose proof (IH (or_intror Hin)). lia.
Qed.

Section Keys.

Context {A : Type} (key : A -> Z).

Lemma filter_key_absent (id : Z) (l : list A) :
  ~ In id (map key l) -> filter (fun a => key a =? id) l = [].
Proof.
  induction l as [|a l IH]; cbn [map filter]; intros Hn; [reflexivity|].
  destruct (Z.eqb_spec (key a) id) as [E|E].
  - exfalso. apply Hn. left. exact E.
  - apply IH. intros Hin. apply Hn. right. exact Hin.
Qed.

Lemma filter_key_present (id : Z) (l : list A) :
  In id (map key l) ->
  exists a l', filter (fun a => key a =? id) l = a :: l' /\ key a = id.
Proof.
  induction l as [|a l IH]; cbn [map filter]; intros Hin; [contradiction|].
  destruct (Z.eqb_spec (key a) id) as [E|E].
  - exists a. eexists. split; [reflexivity|exact E].
  - destruct Hin as [Hin|Hin]; [contradiction|]. apply IH, Hin.
Qed.

Lemma filter_key_inv (id : Z) (l : list A) (a : A) (l' : list A) :
  filter (fun a => key a =? id) l = a :: l' -> In id (map key l) /\ key a = id.
Proof.
  intros E.
  assert (Hin : In a (filter (fun a => key a =? id) l)) by (rewrite E; left; reflexivity).
  apply filter_In in Hin. destruct Hin as [Hin Hk].
  apply Z.eqb_eq in Hk. split; [|exact Hk].
  rewrite <- Hk. apply in_map, Hin.
Qed.

(** Removing the rows of key [id] leaves none of them. *)
Lemma filter_key_removed (id : Z) (l : list A) :
  filter (fun a => key a =? id) (filter (fun a => negb (key a =? id)) l) = [].
Proof.
  induction l as [|a l IH]; cbn [filter]; [reflexivity|].
  destruct (key a =? id) eqn:E; cbn [negb filter]; [exact IH|].
  rewrite E. exact IH.
Qed.

Lemma next_rowid_above (l : list A) (a : A) :
  In a l -> key a < next_rowid (map key l).
Proof.
  destruct l as [|b l]; [contradiction|]. cbn [map next_rowid].
  intros Hin. apply (in_map key) in Hin. cbn [map] in Hin.
  pose proof (fold_max_upper (map key l) (key b) (key a) Hin). lia.
Qed.

Lemma next_rowid_fresh (l : list A) : ~ In (next_rowid (map key l)) (map key l).
Proof.
  intros Hin. apply in_map_iff in Hin. destruct Hin as [a [E Hin]].
  apply next_rowid_above in Hin. lia.
Qed.

End Keys.

Lemma filter_no_absent {A} (key : A -> string) (no : string) (l : list A) :
  ~ In no (map key l) -> filter (fun a => String.eqb (key a) no) l = [].
Proof.
  induction l as [|a l IH]; cbn [map filter]; intros Hn; [reflexivity|].
  destruct (String.eqb_spec (key a) no) as [E|E].
  - exfalso. apply Hn. left. exact E.
  - apply IH. intros Hin. apply Hn. right. exact Hin.
Qed.

Lemma filter_no_present {A} (key : A -> string) (no : string) (l : list A) :
  In no (map key l) ->
  exists a l', filter (fun a => String.eqb (key a) no) l = a :: l'.
Proof.
  induction l as [|a l IH]; cbn [map filter]; intros Hin; [contradiction|].
  destruct (String.eqb_spec (key a) no) as [E|E].
  - exists a. eexists. reflexivity.
  - destruct Hin as [Hin|Hin]; [contradiction|]. apply IH, Hin.
Qed.

(** ** Running the handlers *)

Section Properties.

Context {num : Type} `{Num num}.

Implicit Types (s : Store num) (invoice : InvoiceCreate num).

Ltac unfold_db :=
  unfold try_except, with_get_db, bind, query, execute, raise, ret.

(** *** Binding integers *)

Lemma in_int64_fits_float (n : Z) : in_int64 n = true -> fits_float n = true.
Proof.
  unfold in_int64, fits_float. intros Hn. apply andb_prop in Hn.
  destruct Hn as [Hlo Hhi]. apply Z.leb_le in Hlo. apply Z.ltb_lt in Hhi.
  apply Z.ltb_lt.
  assert (Hb : 2 ^ 63 < 2 ^ 1024 - 2 ^ 970) by reflexivity.
  revert Hlo Hhi Hb. generalize (2 ^ 1024 - 2 ^ 970) (2 ^ 63). intros; lia.
Qed.

Lemma existsb_eqb_In (n : Z) (keys : list Z) :
  existsb (Z.eqb n) keys = true <-> In n keys.
Proof.
  rewrite existsb_exists. split.
  - intros [k [Hk E]]. apply Z.eqb_eq in E. subst k. exact Hk.
  - intros Hn. exists n. split; [exact Hn|apply Z.eqb_refl].
Qed.

Lemma existsb_string_In (no : string) (nos : list string) :
  existsb (String.eqb no) nos = true <-> In no nos.
Proof.
  rewrite existsb_exists. split.
  - intros [k [Hk E]]. apply String.eqb_eq in E. subst k. exact Hk.
  - intros Hn. exists no. split; [exact Hn|apply String.eqb_refl].
Qed.

Lemma binds_key (keys : list Z) (n : Z) : In n keys -> binds keys n = true.
Proof.
  intros Hn. unfold binds. apply orb_true_iff. right. apply existsb_eqb_In, Hn.
Qed.

Lemma binds_no_key (keys : list Z) (n : Z) : ~ In n keys -> binds keys n = in_int64 n.
Proof.
  intros Hn. unfold binds.
  destruct (existsb (Z.eqb n) keys) eqn:E; [|apply orb_false_r].
  apply existsb_eqb_In in E. contradiction.
Qed.

Lemma bind_int_run {A} (keys : Store num -> list Z) (n : Z)
    (k : Db (Store num) A) s :
  bind (bind_int keys n) (fun _ => k) s
  = if binds (keys s) n then k s else (Raise sqlite_overflow, s).
Proof. unfold bind, bind_int. destruct (binds (keys s) n); reflexivity. Qed.

(** *** The first loop of [create_invoice] *)

Lemma product_exists_In s (item : InvoiceItem) :
  product_exists s item = true <-> In (item_product_id item) (map p_id (products s)).
Proof.
  unfold product_exists, product_of, select_product, fetchone. split.
  - destruct (filter _ _) as [|p ps] eqn:E; [discriminate|]. intros _.
    apply (filter_key_inv p_id _ _ _ _ E).
  - intros Hin. destruct (filter_key_present p_id _ _ Hin) as [p [ps [E _]]].
    rewrite E. reflexivity.
Qed.

Lemma product_missing_not_In s (item : InvoiceItem) :
  product_exists s item = false -> ~ In (item_product_id item) (map p_id (products s)).
Proof.
  intros Hm Hin. apply product_exists_In in Hin. congruence.
Qed.

(** One round of the loop only reads the store: it raises what
    [item_failure] says, or goes on with the running sums. *)
Lemma validate_item_run s (item : InvoiceItem) (subtotal : num)
    (validated_items : list (ValidatedItem num)) :
  match item_failure s item with
  | Some e => validate_item (subtotal, validated_items) item s = (Raise e, s)
  | None =>
      exists validated_items',
        validate_item (subtotal, validated_items) item s
        = (Return (charge s subtotal item, validated_items'), s)
  end.
Proof.
  unfold item_failure, validate_item. rewrite bind_int_run.
  destruct (binds (map p_id (products s)) (item_product_id item)); [|reflexivity].
  unfold bind, query, charge, product_exists, product_of.
  destruct (fetchone (select_product (item_product_id item) s)) as [p|]; [|reflexivity].
  destruct (fits_float (item_quantity item)); [|reflexivity].
  eexists. reflexivity.
Qed.

Lemma validate_items_run s (its : list InvoiceItem) :
  forall subtotal validated_items,
  match items_failure s its with
  | Some e => for_in its validate_item (subtotal, validated_items) s = (Raise e, s)
  | None =>
      exists validated_items',
        for_in its validate_item (subtotal, validated_items) s
        = (Return (fold_left (charge s) its subtotal, validated_items'), s)
  end.
Proof.
  induction its as [|item its IH]; intros sub vs; cbn [items_failure for_in fold_left].
  - exists vs. reflexivity.
  - pose proof (validate_item_run s item sub vs) as Hitem.
    unfold bind.
    destruct (item_failure s item) as [e|].
    + rewrite Hitem. reflexivity.
    + destruct Hitem as [vs' Hitem]. rewrite Hitem.
      exact (IH (charge s sub item) vs').
Qed.

Lemma items_failure_none s (its : list InvoiceItem) :
  items_failure s its = None
  <-> forallb (product_exists s) its = true /\ quantities_fit_float its = true.
Proof.
  unfold quantities_fit_float.
  induction its as [|item its IH]; cbn [items_failure forallb]; [tauto|].
  unfold item_failure.
  destruct (product_exists s item) eqn:Ep.
  - rewrite (binds_key _ _ (proj1 (product_exists_In s item) Ep)).
    destruct (fits_float (item_quantity item)); cbn [andb].
    + exact IH.
    + split; [discriminate|]. intros [_ Hf]. discriminate Hf.
  - split.
    + destruct (binds _ _); discriminate.
    + intros [Hf _]. discriminate Hf.
Qed.

Lemma items_failure_app s (pre rest : list InvoiceItem) :
  items_failure s pre = None ->
  items_failure s (pre ++ rest) = items_failure s rest.
Proof.
  induction pre as [|item pre IH]; cbn [items_failure app]; [reflexivity|].
  destruct (item_failure s item); [discriminate|exact IH].
Qed.

(** At the first item whose product is missing, every item before it
    having passed, the loop raises that item's 404 if its product id binds
    and [OverflowError] otherwise. *)
Lemma items_failure_missing s (pre post : list InvoiceItem) (item : InvoiceItem) :
  forallb (product_exists s) pre = true ->
  quantities_fit_float pre = true ->
  product_exists s item = false ->
  items_failure s (pre ++ item :: post)
  = Some (if in_int64 (item_product_id item)
          then product_not_found item else sqlite_overflow).
Proof.
  intros Hpre Hfit Hitem.
  rewrite items_failure_app by (apply items_failure_none; auto).
  cbn [items_failure]. unfold item_failure.
  rewrite (binds_no_key _ _ (product_missing_not_In s item Hitem)), Hitem.
  destruct (in_int64 (item_product_id item)); reflexivity.
Qed.

(** *** The checks of [create_invoice] *)

(** Whatever the block of [create_invoice] raises, the handler raises it
    as [as_http] makes it and leaves the store as it was. *)
Lemma create_invoice_raises_any now invoice s (e : exn) s1 :
  create_invoice_block now invoice s = (Raise e, s1) ->
  create_invoice now invoice s = (Raise (as_http e), s).
Proof.
  intros Hb. unfold create_invoice, try_except, with_get_db. rewrite Hb.
  destruct e; reflexivity.
Qed.

(** An [HTTPException] raised by the block of [create_invoice] before a
    write leaves the handler unchanged, and the store as it was. *)
Lemma create_invoice_raises now invoice s (status_code : Z) (detail : string) :
  create_invoice_block now invoice s = (Raise (HTTPException status_code detail), s) ->
  create_invoice now invoice s = (Raise (HTTPException status_code detail), s)
  /\ create_invoice_block now invoice s = (Raise (HTTPException status_code detail), s)
  /\ response_status 201 (fst (create_invoice now invoice s)) = status_code.
Proof.
  intros Hb.
  assert (Hh : create_invoice now invoice s
               = (Raise (HTTPException status_code detail), s)).
  { unfold create_invoice, try_except, with_get_db. rewrite Hb. reflexivity. }
  rewrite Hh. auto.
Qed.

(** A failed check is raised by the block in the store it started in:
    before the first INSERT. *)
Lemma block_checks_fail now invoice s (e : exn) :
  checks_failure s invoice = Some e ->
  create_invoice_block now invoice s = (Raise e, s).
Proof.
  unfold checks_failure, create_invoice_block. rewrite bind_int_run.
  destruct (binds (map c_id (clients s)) (client_id invoice));
    [|intros E; inversion E; reflexivity].
  unfold bind at 1. unfold query at 1. unfold select_client_id.
  destruct (existsb (Z.eqb (client_id invoice)) (map c_id (clients s))) eqn:Ec.
  - apply existsb_eqb_In in Ec.
    destruct (filter_key_present c_id _ _ Ec) as [c [cs [Ef _]]]. rewrite Ef.
    cbn [map fetchone hd_error].
    unfold bind at 1. unfold query at 1. unfold select_invoice_id_by_no.
    destruct (existsb (String.eqb (invoice_no invoice))
                (map i_invoice_no (invoices s))) eqn:Eno.
    + apply existsb_string_In in Eno.
      destruct (filter_no_present i_invoice_no _ _ Eno) as [i [is' Ei]]. rewrite Ei.
      intros E; inversion E; reflexivity.
    + rewrite filter_no_absent
        by (intros Hin; apply existsb_string_In in Hin; congruence).
      cbn [map fetchone hd_error]. intros Hits.
      unfold bind at 1.
      pose proof (validate_items_run s (items invoice) (of_int 0) []) as Hloop.
      rewrite Hits in Hloop. rewrite Hloop. reflexivity.
  - rewrite filter_key_absent
      by (intros Hin; apply existsb_eqb_In in Hin; congruence).
    intros E; inversion E; reflexivity.
Qed.

Lemma checks_unknown_client invoice s :
  ~ In (client_id invoice) (map c_id (clients s)) ->
  checks_failure s invoice
  = Some (if in_int64 (client_id invoice)
          then client_not_found invoice else sqlite_overflow).
Proof.
  intros Hc. unfold checks_failure. rewrite (binds_no_key _ _ Hc).
  destruct (in_int64 (client_id invoice)); [|reflexivity].
  destruct (existsb _ _) eqn:E; [|reflexivity].
  apply existsb_eqb_In in E. contradiction.
Qed.

Lemma checks_known_client invoice s :
  In (client_id invoice) (map c_id (clients s)) ->
  checks_failure s invoice
  = if existsb (String.eqb (invoice_no invoice)) (map i_invoice_no (invoices s))
    then Some (invoice_no_exists invoice)
    else items_failure s (items invoice).
Proof.
  intros Hc. unfold checks_failure.
  rewrite (binds_key _ _ Hc), (proj2 (existsb_eqb_In _ _) Hc). reflexivity.
Qed.

Lemma block_duplicate_invoice_no now invoice s :
  In (client_id invoice) (map c_id (clients s)) ->
  In (invoice_no invoice) (map i_invoice_no (invoices s)) ->
  create_invoice_block now invoice s = (Raise (invoice_no_exists invoice), s).
Proof.
  intros Hc Hno. apply block_checks_fail.
  rewrite (checks_known_client invoice s Hc), (proj2 (existsb_string_In _ _) Hno).
  reflexivity.
Qed.

Lemma checks_unknown_product invoice s
    (pre post : list InvoiceItem) (item : InvoiceItem) :
  In (client_id invoice) (map c_id (clients s)) ->
  ~ In (invoice_no invoice) (map i_invoice_no (invoices s)) ->
  items invoice = pre ++ item :: post ->
  forallb (product_exists s) pre = true ->
  quantities_fit_float pre = true ->
  product_exists s item = false ->
  checks_failure s invoice
  = Some (if in_int64 (item_product_id item)
          then product_not_found item else sqlite_overflow).
Proof.
  intros Hc Hno Hits Hpre Hfit Hitem.
  rewrite (checks_known_client invoice s Hc).
  destruct (existsb _ _) eqn:E; [apply existsb_string_In in E; contradiction|].
  rewrite Hits. apply items_failure_missing; assumption.
Qed.

(** C2 (amended): a create request whose [client_id] names no row of
    [clients] is answered with 404 "Client with id ... not found" when the
    id is in the signed 64-bit range, and with 500 when it is not (the
    SELECT cannot bind it); either way the block under [with get_db()]
    raised before any write and the store is unchanged, so no invoice row
    and no item row was added. *)
Theorem create_invoice_unknown_client now invoice s :
  ~ In (client_id invoice) (map c_id (clients s)) ->
  create_invoice now invoice s
  = (Raise (if in_int64 (client_id invoice)
            then client_not_found invoice else int_too_large), s)
  /\ create_invoice_block now invoice s
     = (Raise (if in_int64 (client_id invoice)
               then client_not_found invoice else sqlite_overflow), s)
  /\ response_status 201 (fst (create_invoice now invoice s))
     = (if in_int64 (client_id invoice) then 404 else 500).
Proof.
  intros Hc.
  pose proof (block_checks_fail now invoice s _ (checks_unknown_client invoice s Hc)) as Hb.
  rewrite (create_invoice_raises_any now invoice s _ s Hb).
  split; [|split; [exact Hb|]]; destruct (in_int64 (client_id invoice)); reflexivity.
Qed.

(** C3: a create request for an existing client whose [invoice_no] is
    already the [invoice_no] of a stored invoice is answered with 400
    "Invoice number ... already exists", and the store is unchanged: the
    block raised before any write. *)
Theorem create_invoice_duplicate_invoice_no now invoice s :
  In (client_id invoice) (map c_id (clients s)) ->
  In (invoice_no invoice) (map i_invoice_no (invoices s)) ->
  create_invoice now invoice s = (Raise (invoice_no_exists invoice), s)
  /\ create_invoice_block now invoice s = (Raise (invoice_no_exists invoice), s)
  /\ response_status 201 (fst (create_invoice now invoice s)) = 400.
Proof.
  intros Hc Hno. apply create_invoice_raises, block_duplicate_invoice_no; assumption.
Qed.

(** C4 (amended): a create request that passes the client and
    invoice-number checks and has an item whose product does not exist,
    every item before it in the request having a product and a quantity that
    converts to [float], is answered with 404 "Product with id ... not
    found" naming that first missing product when its id is in the signed
    64-bit range, and with 500 when it is not; either way the store is
    unchanged, the block having raised before its first insert. *)
Theorem create_invoice_unknown_product now invoice s
    (pre post : list InvoiceItem) (item : InvoiceItem) :
  In (client_id invoice) (map c_id (clients s)) ->
  ~ In (invoice_no invoice) (map i_invoice_no (invoices s)) ->
  items invoice = pre ++ item :: post ->
  forallb (product_exists s) pre = true ->
  quantities_fit_float pre = true ->
  product_exists s item = false ->
  create_invoice now invoice s
  = (Raise (if in_int64 (item_product_id item)
            then product_not_found item else int_too_large), s)
  /\ create_invoice_block now invoice s
     = (Raise (if in_int64 (item_product_id item)
               then product_not_found item else sqlite_overflow), s)
  /\ response_status 201 (fst (create_invoice now invoice s))
     = (if in_int64 (item_product_id item) then 404 else 500).
Proof.
  intros Hc Hno Hits Hpre Hfit Hitem.
  pose proof (block_checks_fail now invoice s _
                (checks_unknown_product invoice s pre post item
                   Hc Hno Hits Hpre Hfit Hitem)) as Hb.
  rewrite (create_invoice_raises_any now invoice s _ s Hb).
  split; [|split; [exact Hb|]]; destruct (in_int64 (item_product_id item)); reflexivity.
Qed.

(** ** Reading an invoice *)

Lemma find_filter {A} (f : A -> bool) (l : list A) :
  find f l = hd_error (filter f l).
Proof.
  induction l as [|a l IH]; cbn [find filter]; [reflexivity|].
  destruct (f a); [reflexivity|exact IH].
Qed.

Lemma filter_none {A} (f : A -> bool) (l : list A) :
  (forall a, In a l -> f a = false) -> filter f l = [].
Proof.
  induction l as [|a l IH]; cbn [filter]; intros Hf; [reflexivity|].
  rewrite (Hf a (or_introl eq_refl)). apply IH. intros b Hb. apply Hf. right. exact Hb.
Qed.

Lemma in_join {A B} (on : A -> B -> bool) (l : list A) (r : list B) (a : A) (b : B) :
  In (a, b) (join on l r) <-> In a l /\ In b r /\ on a b = true.
Proof.
  unfold join. rewrite in_flat_map. split.
  - intros [a' [Ha Hin]]. apply in_map_iff in Hin. destruct Hin as [b' [E Hb]].
    inversion E; subst. apply filter_In in Hb. tauto.
  - intros [Ha [Hb Hon]]. exists a. split; [exact Ha|].
    apply in_map. apply filter_In. tauto.
Qed.

Lemma build_items_fold (rows : list (InvoiceItemRow num * ProductRow num))
    (items : list (InvoiceItemResponse num)) (subtotal : num) :
  fold_left
    (fun (vars : list (InvoiceItemResponse num) * num) item_row =>
       let '(items, subtotal) := vars in
       let '(ii, p) := item_row in
       let item_subtotal := mul (ii_unit_price ii) (of_int (ii_quantity ii)) in
       (items ++
        [{| ir_id := ii_id ii;
            ir_product_id := ii_product_id ii;
            ir_product_name := p_name p;
            ir_quantity := ii_quantity ii;
            ir_unit_price := ii_unit_price ii;
            ir_subtotal := item_subtotal |}],
        add subtotal item_subtotal))
    rows (items, subtotal)
  = (items ++ map item_view rows,
     fold_left add (map ir_subtotal (map item_view rows)) subtotal).
Proof.
  revert items subtotal.
  induction rows as [|[ii p] rows IH]; intros items subtotal; cbn [fold_left map].
  - rewrite app_nil_r. reflexivity.
  - rewrite IH. rewrite <- app_assoc. reflexivity.
Qed.

(** The loop of [get_invoice]: one response item per joined row, and their
    subtotals summed in that order. *)
Lemma build_items_spec (rows : list (InvoiceItemRow num * ProductRow num)) :
  build_items rows
  = (map item_view rows, sum (map ir_subtotal (map item_view rows))).
Proof. unfold build_items, sum. rewrite build_items_fold. reflexivity. Qed.

(** [get_invoice] never writes: it answers 500 when the id does not bind,
    404 when the join of the invoice with its client is empty, and with the
    built response otherwise. *)
Lemma get_invoice_run id s :
  get_invoice id s
  = if binds (map i_id (invoices s)) id then
      match fetchone (select_invoice id s) with
      | None => (Raise invoice_not_found, s)
      | Some row => (Return (build_response row (select_items id s)), s)
      end
    else (Raise int_too_large, s).
Proof.
  unfold get_invoice, get_invoice_block, try_except, with_get_db.
  rewrite bind_int_run.
  destruct (binds (map i_id (invoices s)) id); [|reflexivity].
  unfold bind, query, raise, ret.
  destruct (fetchone (select_invoice id s)); reflexivity.
Qed.

Lemma get_invoice_store id s : snd (get_invoice id s) = s.
Proof.
  rewrite get_invoice_run. destruct (binds _ _); [|reflexivity].
  destruct (fetchone (select_invoice id s)); reflexivity.
Qed.

Lemma select_invoice_head id s (i : InvoiceRow num) (c : ClientRow) :
  fetchone (select_invoice id s) = Some (i, c) ->
  In i (invoices s) /\ In c (clients s) /\ i_id i = id /\ c_id c = i_client_id i.
Proof.
  unfold fetchone, select_invoice. intros E.
  destruct (filter _ _) as [|row rows] eqn:Ef; [discriminate|].
  inversion E; subst row.
  assert (Hin : In (i, c) (filter (fun ic => i_id (fst ic) =? id) (invoices_join_clients s)))
    by (rewrite Ef; left; reflexivity).
  apply filter_In in Hin. destruct Hin as [Hj Hid].
  apply in_join in Hj. destruct Hj as [Hi [Hc Hon]].
  cbn [fst] in Hid. apply Z.eqb_eq in Hid. apply Z.eqb_eq in Hon. auto.
Qed.

(** An id that the first query finds is the key of a stored row, so it
    binds. *)
Lemma select_invoice_binds id s (row : InvoiceRow num * ClientRow) :
  fetchone (select_invoice id s) = Some row ->
  binds (map i_id (invoices s)) id = true.
Proof.
  destruct row as [i c]. intros E. apply select_invoice_head in E.
  destruct E as [Hi [_ [Hid _]]]. apply binds_key. rewrite <- Hid. apply in_map, Hi.
Qed.

Lemma get_invoice_found id s (row : InvoiceRow num * ClientRow) :
  fetchone (select_invoice id s) = Some row ->
  get_invoice id s = (Return (build_response row (select_items id s)), s).
Proof.
  intros E. rewrite get_invoice_run, (select_invoice_binds id s row E), E. reflexivity.
Qed.

Lemma get_invoice_none id s :
  fetchone (select_invoice id s) = None ->
  get_invoice id s
  = (Raise (if binds (map i_id (invoices s)) id
            then invoice_not_found else int_too_large), s).
Proof.
  intros E. rewrite get_invoice_run, E. destruct (binds _ _); reflexivity.
Qed.

Lemma get_invoice_inv id s (r : InvoiceResponse num) s' :
  get_invoice id s = (Return r, s') ->
  exists row,
    fetchone (select_invoice id s) = Some row
    /\ r = build_response row (select_items id s)
    /\ s' = s.
Proof.
  rewrite get_invoice_run. destruct (binds _ _); [|discriminate].
  destruct (fetchone (select_invoice id s)) as [row|]; [|discriminate].
  intros E. inversion E. exists row. auto.
Qed.


(** ** Deleting an invoice *)

Lemma select_invoice_absent id s :
  ~ In id (map i_id (invoices s)) -> select_invoice id s = [].
Proof.
  intros Hn. unfold select_invoice. apply filter_none. intros [i c] Hin.
  apply in_join in Hin. destruct Hin as [Hi _]. cbn [fst].
  apply Z.eqb_neq. intros E. apply Hn. rewrite <- E. apply in_map, Hi.
Qed.

Lemma deleted_no_invoice id s : ~ In id (map i_id (invoices (deleted id s))).
Proof.
  unfold deleted, delete_invoice_row, delete_items_of, execute. cbn.
  intros Hin. apply in_map_iff in Hin. destruct Hin as [i [E Hin]].
  apply filter_In in Hin. destruct Hin as [_ Hneq].
  apply negb_true_iff, Z.eqb_neq in Hneq. contradiction.
Qed.

Lemma no_invoice_binds (keys : list Z) (id : Z) :
  ~ In id keys ->
  (if binds keys id then invoice_not_found else int_too_large) = no_invoice id.
Proof. intros Hn. rewrite (binds_no_key keys id Hn). reflexivity. Qed.

Lemma get_invoice_absent id s :
  ~ In id (map i_id (invoices s)) ->
  get_invoice id s = (Raise (no_invoice id), s).
Proof.
  intros Hn. rewrite get_invoice_none by (rewrite select_invoice_absent; auto).
  rewrite (no_invoice_binds _ _ Hn). reflexivity.
Qed.

(** [delete_invoice] answers 500 when the id does not bind, 404 when no
    invoice row has it, and deletes otherwise. *)
Lemma delete_invoice_run id s :
  delete_invoice id s
  = if binds (map i_id (invoices s)) id then
      match fetchone (select_invoice_id id s) with
      | None => (Raise invoice_not_found, s)
      | Some _ => (Return tt, deleted id s)
      end
    else (Raise int_too_large, s).
Proof.
  unfold delete_invoice, delete_invoice_block, try_except, with_get_db.
  rewrite bind_int_run.
  destruct (binds (map i_id (invoices s)) id); [|reflexivity].
  unfold bind, query, raise, ret.
  destruct (fetchone (select_invoice_id id s)); reflexivity.
Qed.

Lemma delete_invoice_absent id s :
  ~ In id (map i_id (invoices s)) ->
  delete_invoice id s = (Raise (no_invoice id), s).
Proof.
  intros Hn. rewrite delete_invoice_run, (binds_no_key _ _ Hn).
  unfold select_invoice_id, no_invoice. rewrite (filter_key_absent i_id _ _ Hn).
  destruct (in_int64 id); reflexivity.
Qed.

Lemma delete_invoice_present id s :
  In id (map i_id (invoices s)) ->
  delete_invoice id s = (Return tt, deleted id s).
Proof.
  intros Hin. rewrite delete_invoice_run, (binds_key _ _ Hin).
  unfold select_invoice_id.
  destruct (filter_key_present i_id _ _ Hin) as [i [rows [E _]]]. rewrite E.
  reflexivity.
Qed.

(** C8 (amended): when no invoice row has the id, [delete_invoice] answers
    404 if the id is in the signed 64-bit range and 500 if it is not;
    otherwise it deletes the invoice's item rows, then its row, and no other
    row, leaving no row of either table for the id, after which
    [get_invoice] and a second [delete_invoice] on that id both answer as
    for an id no row has (404 for an id in the range, as every stored key
    is). *)
Theorem delete_invoice_spec id s :
  match invoice_row id s with
  | None => delete_invoice id s = (Raise (no_invoice id), s)
  | Some _ =>
      delete_invoice id s = (Return tt, deleted id s)
      /\ response_status 204 (fst (delete_invoice id s)) = 204
      /\ invoice_items (deleted id s)
         = filter (fun ii => negb (ii_invoice_id ii =? id)) (invoice_items s)
      /\ invoices (deleted id s) = filter (fun i => negb (i_id i =? id)) (invoices s)
      /\ clients (deleted id s) = clients s
      /\ products (deleted id s) = products s
      /\ item_rows id (deleted id s) = []
      /\ invoice_row id (deleted id s) = None
      /\ get_invoice id (deleted id s) = (Raise (no_invoice id), deleted id s)
      /\ delete_invoice id (deleted id s) = (Raise (no_invoice id), deleted id s)
  end.
Proof.
  unfold invoice_row at 1. rewrite find_filter.
  destruct (filter (fun i => i_id i =? id) (invoices s)) as [|i rows] eqn:E;
    cbn [hd_error].
  - apply delete_invoice_absent. intros Hin.
    destruct (filter_key_present i_id _ _ Hin) as [i [rows [E' _]]]. congruence.
  - assert (Hd : delete_invoice id s = (Return tt, deleted id s))
      by (apply delete_invoice_present, (filter_key_inv i_id id _ _ _ E)).
    pose proof (deleted_no_invoice id s) as Hn.
    rewrite Hd.
    split; [reflexivity|]. split; [reflexivity|]. split; [reflexivity|].
    split; [reflexivity|]. split; [reflexivity|]. split; [reflexivity|].
    repeat split.
    + unfold item_rows, deleted, delete_invoice_row, delete_items_of, execute. cbn.
      apply filter_key_removed.
    + unfold invoice_row. rewrite find_filter.
      rewrite (filter_key_absent i_id _ _ Hn). reflexivity.
    + apply get_invoice_absent, Hn.
    + apply delete_invoice_absent, Hn.
Qed.

(** ** Creating an invoice *)

Lemma forallb_false_split {A} (f : A -> bool) (l : list A) :
  forallb f l = false ->
  exists pre x post, l = pre ++ x :: post /\ forallb f pre = true /\ f x = false.
Proof.
  induction l as [|a l IH]; cbn [forallb]; [discriminate|].
  destruct (f a) eqn:Ea; cbn [andb].
  - intros Hl. destruct (IH Hl) as [pre [x [post [E [Hpre Hx]]]]].
    exists (a :: pre), x, post. subst l. cbn [forallb app]. rewrite Ea. auto.
  - intros _. exists [], a, l. auto.
Qed.

Lemma price_of_product_of s item :
  price_of s item = option_map p_price (product_of s item).
Proof.
  unfold price_of, product_of, select_product_price, select_product, fetchone.
  destruct (filter _ _); reflexivity.
Qed.

Lemma quantities_in_int64_fit (its : list InvoiceItem) :
  quantities_in_int64 its = true -> quantities_fit_float its = true.
Proof.
  unfold quantities_in_int64, quantities_fit_float. rewrite !forallb_forall.
  intros Hq item Hitem. apply in_int64_fits_float, Hq, Hitem.
Qed.

(** The second loop of [create_invoice], when every item's product exists
    and every quantity binds: one item row appended per item, nothing else
    touched. *)
Lemma store_items_run (invoice_id : Z) (its : list InvoiceItem) :
  forall s,
  forallb (product_exists s) its = true ->
  quantities_in_int64 its = true ->
  for_in its (store_item invoice_id) tt s
  = (Return tt,
     set_invoice_items s
       (invoice_items s ++ new_item_rows (products s) invoice_id (invoice_items s) its)).
Proof.
  unfold quantities_in_int64.
  induction its as [|item its IH]; intros s Hall Hq; cbn [for_in new_item_rows forallb] in *.
  - unfold ret, set_invoice_items. rewrite app_nil_r. destruct s; reflexivity.
  - apply andb_prop in Hall. destruct Hall as [Hitem Hall].
    apply andb_prop in Hq. destruct Hq as [Hqi Hq].
    unfold bind at 1. unfold store_item at 1. unfold bind at 1. unfold query at 1.
    unfold select_product_price, fetchone.
    unfold product_exists, product_of, select_product, fetchone in Hitem.
    destruct (filter (fun p => p_id p =? item_product_id item) (products s))
      as [|p ps] eqn:Ef; [discriminate|].
    cbn [map hd_error]. rewrite bind_int_run. unfold binds. rewrite Hqi.
    cbn [orb]. unfold insert_invoice_item, execute.
    rewrite IH by assumption.
    cbn [set_invoice_items invoice_items products clients invoices].
    rewrite <- app_assoc. reflexivity.
Qed.

(** When a quantity does not bind, the loop raises [OverflowError] at the
    INSERT of its item row; tables [clients], [products] and [invoices] are
    as the loop found them. *)
Lemma store_items_overflow (invoice_id : Z) (its : list InvoiceItem) :
  forall s,
  forallb (product_exists s) its = true ->
  quantities_in_int64 its = false ->
  exists s1,
    for_in its (store_item invoice_id) tt s = (Raise sqlite_overflow, s1)
    /\ clients s1 = clients s /\ products s1 = products s
    /\ invoices s1 = invoices s.
Proof.
  unfold quantities_in_int64.
  induction its as [|item its IH]; intros s Hall Hq; cbn [for_in forallb] in *;
    [discriminate|].
  apply andb_prop in Hall. destruct Hall as [Hitem Hall].
  unfold bind at 1. unfold store_item at 1. unfold bind at 1. unfold query at 1.
  unfold select_product_price, fetchone.
  unfold product_exists, product_of, select_product, fetchone in Hitem.
  destruct (filter (fun p => p_id p =? item_product_id item) (products s))
    as [|p ps] eqn:Ef; [discriminate|].
  cbn [map hd_error]. rewrite bind_int_run. unfold binds. cbn [existsb].
  rewrite orb_false_r.
  destruct (in_int64 (item_quantity item)) eqn:Hqi; cbn [andb] in Hq.
  - unfold insert_invoice_item, execute.
    match goal with
    | |- context [for_in its _ tt ?s0] =>
        destruct (IH s0 Hall Hq) as [s1 [E [Hc [Hp Hi]]]]
    end.
    exists s1. rewrite E. auto.
  - exists s. auto.
Qed.

Lemma checks_pass_inv invoice s :
  checks_failure s invoice = None ->
  In (client_id invoice) (map c_id (clients s))
  /\ ~ In (invoice_no invoice) (map i_invoice_no (invoices s))
  /\ forallb (product_exists s) (items invoice) = true
  /\ quantities_fit_float (items invoice) = true.
Proof.
  unfold checks_failure.
  destruct (binds _ _); [|discriminate].
  destruct (existsb (Z.eqb _) _) eqn:Ec; [|discriminate].
  destruct (existsb (String.eqb _) _) eqn:Eno; [discriminate|].
  intros Hits. apply items_failure_none in Hits. destruct Hits as [Hps Hfit].
  split; [apply existsb_eqb_In, Ec|].
  split; [intros Hin; apply existsb_string_In in Hin; congruence|].
  auto.
Qed.

Lemma checks_pass invoice s :
  In (client_id invoice) (map c_id (clients s)) ->
  ~ In (invoice_no invoice) (map i_invoice_no (invoices s)) ->
  forallb (product_exists s) (items invoice) = true ->
  quantities_fit_float (items invoice) = true ->
  checks_failure s invoice = None.
Proof.
  intros Hc Hno Hps Hfit. rewrite (checks_known_client invoice s Hc).
  destruct (existsb _ _) eqn:E; [apply existsb_string_In in E; contradiction|].
  apply items_failure_none. auto.
Qed.

(** When its checks pass, the block of [create_invoice] inserts the
    invoice row and goes on with the second loop and [get_invoice]. *)
Lemma block_after_checks now invoice s :
  checks_failure s invoice = None ->
  create_invoice_block now invoice s
  = bind (for_in (items invoice) (store_item (new_invoice_id s)) tt)
         (fun _ => get_invoice (new_invoice_id s))
         (set_invoices s (invoices s ++ [new_invoice_row now invoice s])).
Proof.
  intros Hchecks. pose proof Hchecks as Hits.
  destruct (checks_pass_inv invoice s Hchecks) as [Hc [Hno [Hps Hfit]]].
  rewrite (checks_known_client invoice s Hc) in Hits.
  destruct (existsb _ _) eqn:Eno in Hits; [discriminate|].
  unfold create_invoice_block. rewrite bind_int_run, (binds_key _ _ Hc).
  unfold bind at 1. unfold query at 1. unfold select_client_id.
  destruct (filter_key_present c_id _ _ Hc) as [c [cs [Ec _]]]. rewrite Ec.
  cbn [map fetchone hd_error].
  unfold bind at 1. unfold query at 1. unfold select_invoice_id_by_no.
  rewrite (filter_no_absent i_invoice_no _ _ Hno). cbn [map fetchone hd_error].
  unfold bind at 1.
  pose proof (validate_items_run s (items invoice) (of_int 0) []) as Hloop.
  rewrite Hits in Hloop. destruct Hloop as [vs Ev]. rewrite Ev.
  unfold bind at 1. unfold insert_invoice at 1. reflexivity.
Qed.

(** When its checks pass and every quantity binds, the block of
    [create_invoice] performs its inserts and ends with [get_invoice] on the
    new id. *)
Lemma block_created now invoice s :
  In (client_id invoice) (map c_id (clients s)) ->
  ~ In (invoice_no invoice) (map i_invoice_no (invoices s)) ->
  forallb (product_exists s) (items invoice) = true ->
  quantities_in_int64 (items invoice) = true ->
  create_invoice_block now invoice s
  = get_invoice (new_invoice_id s) (created now invoice s).
Proof.
  intros Hc Hno Hps Hq.
  rewrite block_after_checks
    by (apply checks_pass; auto using quantities_in_int64_fit).
  unfold bind. rewrite store_items_run by assumption. reflexivity.
Qed.

(** When its checks pass and a quantity does not bind, the block raises
    [OverflowError] after the INSERT of the invoice row. *)
Lemma block_overflow now invoice s :
  checks_failure s invoice = None ->
  quantities_in_int64 (items invoice) = false ->
  exists s1,
    create_invoice_block now invoice s = (Raise sqlite_overflow, s1)
    /\ invoices s1 = invoices s ++ [new_invoice_row now invoice s].
Proof.
  intros Hchecks Hq. rewrite (block_after_checks now invoice s Hchecks).
  destruct (checks_pass_inv invoice s Hchecks) as [_ [_ [Hps _]]].
  destruct (store_items_overflow (new_invoice_id s) (items invoice)
              (set_invoices s (invoices s ++ [new_invoice_row now invoice s]))
              Hps Hq) as [s1 [E [_ [_ Hi]]]].
  exists s1. unfold bind. rewrite E. auto.
Qed.

(** The handler, whatever the request: it raises what [create_failure]
    says, leaving the store as it was, or answers as [get_invoice] does on
    the new id in the store with the rows inserted. *)
Lemma create_invoice_decided now invoice s :
  create_invoice now invoice s
  = match create_failure s invoice with
    | Some e => (Raise (as_http e), s)
    | None => get_invoice (new_invoice_id s) (created now invoice s)
    end.
Proof.
  unfold create_failure.
  destruct (checks_failure s invoice) as [e|] eqn:Hchecks.
  - apply (create_invoice_raises_any now invoice s e s), block_checks_fail, Hchecks.
  - destruct (quantities_in_int64 (items invoice)) eqn:Hq.
    + destruct (checks_pass_inv invoice s Hchecks) as [Hc [Hno [Hps _]]].
      unfold create_invoice, try_except, with_get_db.
      rewrite (block_created now invoice s Hc Hno Hps Hq).
      pose proof (get_invoice_store (new_invoice_id s) (created now invoice s)) as Hst.
      destruct (get_invoice (new_invoice_id s) (created now invoice s))
        as [[r|e] s1] eqn:Eg; cbn [snd] in Hst; subst s1; [reflexivity|].
      exfalso. rewrite get_invoice_run in Eg.
      assert (Hb : binds (map i_id (invoices (created now invoice s)))
                     (new_invoice_id s) = true).
      { apply binds_key. unfold created. cbn [invoices].
        rewrite map_app, in_app_iff. right. left. reflexivity. }
      rewrite Hb in Eg.
      destruct (fetchone _) eqn:Esel; [discriminate|].
      assert (Hsel : exists c, fetchone (select_invoice (new_invoice_id s)
                                           (created now invoice s))
                               = Some (new_invoice_row now invoice s, c)).
      { destruct (filter_key_present c_id _ _ Hc) as [c [cs [Ec Hid]]].
        exists c. unfold select_invoice, invoices_join_clients, created, join.
        cbn [invoices clients]. rewrite flat_map_app, filter_app.
        rewrite (filter_none _ (flat_map _ (invoices s))).
        - cbn [app flat_map]. rewrite app_nil_r.
          assert (Ef : filter (fun c0 => i_client_id (new_invoice_row now invoice s)
                                         =? c_id c0) (clients s) = c :: cs).
          { rewrite <- Ec. apply filter_ext. intros q. apply Z.eqb_sym. }
          rewrite Ef. cbn [map filter fst new_invoice_row i_id].
          rewrite Z.eqb_refl. reflexivity.
        - intros [i c0] Hi. apply in_flat_map in Hi. destruct Hi as [i' [Hi' Hi]].
          apply in_map_iff in Hi. destruct Hi as [c' [E _]]. inversion E; subst.
          cbn [fst]. apply Z.eqb_neq.
          pose proof (next_rowid_above i_id (invoices s) i Hi') as Hlt.
          unfold new_invoice_id. lia. }
      destruct Hsel as [c Hsel]. congruence.
    + destruct (block_overflow now invoice s Hchecks Hq) as [s1 [E _]].
      apply (create_invoice_raises_any now invoice s _ s1 E).
Qed.

(** A successful [create_invoice] passed the three checks, left the store
    [created], and returned what [get_invoice] answers there. *)
Lemma create_invoice_inv now invoice s (r : InvoiceResponse num) s' :
  create_invoice now invoice s = (Return r, s') ->
  In (client_id invoice) (map c_id (clients s))
  /\ ~ In (invoice_no invoice) (map i_invoice_no (invoices s))
  /\ forallb (product_exists s) (items invoice) = true
  /\ s' = created now invoice s
  /\ get_invoice (new_invoice_id s) s' = (Return r, s').
Proof.
  rewrite create_invoice_decided. unfold create_failure.
  destruct (checks_failure s invoice) as [e|] eqn:Hchecks; [discriminate|].
  destruct (quantities_in_int64 (items invoice)); [|discriminate].
  destruct (checks_pass_inv invoice s Hchecks) as [Hc [Hno [Hps _]]].
  intros Hget.
  pose proof (get_invoice_store (new_invoice_id s) (created now invoice s)) as Hst.
  rewrite Hget in Hst. cbn [snd] in Hst. subst s'. auto.
Qed.

Lemma create_invoice_inv_quantities now invoice s (r : InvoiceResponse num) s' :
  create_invoice now invoice s = (Return r, s') ->
  quantities_in_int64 (items invoice) = true.
Proof.
  rewrite create_invoice_decided. unfold create_failure.
  destruct (checks_failure s invoice); [discriminate|].
  destruct (quantities_in_int64 (items invoice)); [reflexivity|discriminate].
Qed.

(** ** The schema constraints, as propositions *)

Lemma nodupb_NoDup (l : list Z) : nodupb Z.eqb l = true -> NoDup l.
Proof.
  induction l as [|x l IH]; cbn [nodupb]; intros Hn; [constructor|].
  apply andb_prop in Hn. destruct Hn as [Hx Hl]. constructor; [|apply IH, Hl].
  intros Hin. apply negb_true_iff in Hx.
  assert (Hex : existsb (Z.eqb x) l = true).
  { apply existsb_exists. exists x. split; [exact Hin|apply Z.eqb_refl]. }
  congruence.
Qed.

Lemma wf_store_products s : wf_store s = true -> NoDup (map p_id (products s)).
Proof.
  unfold wf_store. intros Hwf. repeat (apply andb_prop in Hwf; destruct Hwf as [Hwf ?]).
  apply nodupb_NoDup. assumption.
Qed.

Lemma wf_store_clients s : wf_store s = true -> NoDup (map c_id (clients s)).
Proof.
  unfold wf_store. intros Hwf. repeat (apply andb_prop in Hwf; destruct Hwf as [Hwf ?]).
  apply nodupb_NoDup. assumption.
Qed.

Lemma wf_store_items s :
  wf_store s = true ->
  forall ii, In ii (invoice_items s) -> In (ii_invoice_id ii) (map i_id (invoices s)).
Proof.
  unfold wf_store. intros Hwf ii Hin. apply andb_prop in Hwf. destruct Hwf as [_ Hfk].
  rewrite forallb_forall in Hfk. specialize (Hfk ii Hin).
  apply existsb_exists in Hfk. destruct Hfk as [id [Hid E]].
  apply Z.eqb_eq in E. rewrite E. exact Hid.
Qed.

Lemma filter_key_unique {A} (key : A -> Z) (id : Z) (l : list A) (a : A) (l' : list A) :
  NoDup (map key l) -> filter (fun a => key a =? id) l = a :: l' -> l' = [].
Proof.
  induction l as [|b l IH]; cbn [map filter]; intros Hnd E; [discriminate|].
  inversion Hnd as [|? ? Hb Hnd']; subst.
  destruct (Z.eqb_spec (key b) id) as [Eb|Eb].
  - inversion E; subst. apply filter_key_absent. exact Hb.
  - apply IH; assumption.
Qed.

Lemma filter_all {A} (f : A -> bool) (l : list A) :
  (forall a, In a l -> f a = true) -> filter f l = l.
Proof.
  induction l as [|a l IH]; cbn [filter]; intros Hf; [reflexivity|].
  rewrite (Hf a (or_introl eq_refl)). f_equal. apply IH.
  intros b Hb. apply Hf. right. exact Hb.
Qed.

(** ** The rows a successful create leaves *)

Lemma new_item_rows_invoice_id (ps : list (ProductRow num)) (id : Z)
    (its : list InvoiceItem) :
  forall table row, In row (new_item_rows ps id table its) -> ii_invoice_id row = id.
Proof.
  induction its as [|item its IH]; intros table row; cbn [new_item_rows]; [contradiction|].
  destruct (hd_error _) as [unit_price|]; [|contradiction].
  intros [E|Hin]; [subst row; reflexivity|]. eapply IH, Hin.
Qed.

(** Under unique product ids, the join of the new item rows with
    [products] pairs each row, in order, with the product its item was
    charged at. *)
Lemma new_item_rows_joined s (id : Z) (its : list InvoiceItem) :
  NoDup (map p_id (products s)) ->
  forallb (product_exists s) its = true ->
  forall table,
  exists joined,
    join (fun ii p => ii_product_id ii =? p_id p)
         (new_item_rows (products s) id table its) (products s) = joined
    /\ map fst joined = new_item_rows (products s) id table its
    /\ Forall2 (stored_for s id) its joined.
Proof.
  intros Hnd. induction its as [|item its IH]; cbn [forallb new_item_rows]; intros Hall table.
  - exists []. repeat split. constructor.
  - apply andb_prop in Hall. destruct Hall as [Hitem Hall].
    unfold product_exists in Hitem.
    destruct (product_of s item) as [p|] eqn:Ep; [|discriminate].
    unfold product_of, select_product, fetchone in Ep.
    destruct (filter (fun p => p_id p =? item_product_id item) (products s))
      as [|p0 ps0] eqn:Ef; [discriminate|].
    cbn [hd_error] in Ep. inversion Ep; subst p0.
    pose proof (filter_key_unique p_id _ _ _ _ Hnd Ef) as Hps0. subst ps0.
    cbn [map hd_error].
    set (row := {| ii_id := next_rowid (map ii_id table);
                   ii_invoice_id := id;
                   ii_product_id := item_product_id item;
                   ii_quantity := item_quantity item;
                   ii_unit_price := p_price p |}).
    destruct (IH Hall (table ++ [row])) as [joined [Ej [Efst HF]]].
    exists ((row, p) :: joined). unfold join in *. cbn [flat_map].
    assert (Efilter : filter (fun p => ii_product_id row =? p_id p) (products s) = [p]).
    { rewrite <- Ef. apply filter_ext. intros q. apply Z.eqb_sym. }
    rewrite Efilter, Ej. cbn [map app fst]. rewrite Efst.
    repeat split. constructor; [|exact HF].
    unfold stored_for, product_of, select_product, fetchone. cbn [fst snd].
    rewrite Ef. repeat split.
Qed.

(** In a store that meets the schema constraints, the second query of
    [get_invoice] on a freshly created invoice returns its new item rows,
    each joined once. *)
Lemma select_items_created now invoice s :
  wf_store s = true ->
  forallb (product_exists s) (items invoice) = true ->
  map fst (select_items (new_invoice_id s) (created now invoice s))
  = item_rows (new_invoice_id s) (created now invoice s)
  /\ Forall2 (stored_for s (new_invoice_id s)) (items invoice)
       (select_items (new_invoice_id s) (created now invoice s)).
Proof.
  intros Hwf Hps.
  set (id := new_invoice_id s).
  set (rows := new_item_rows (products s) id (invoice_items s) (items invoice)).
  assert (Hold : forall ii, In ii (invoice_items s) -> (ii_invoice_id ii =? id) = false).
  { intros ii Hin. apply Z.eqb_neq. intros E.
    apply (next_rowid_fresh i_id (invoices s)). fold (new_invoice_id s). fold id.
    rewrite <- E. apply wf_store_items; assumption. }
  assert (Hnew : forall ii, In ii rows -> (ii_invoice_id ii =? id) = true).
  { intros ii Hin. apply Z.eqb_eq. eapply new_item_rows_invoice_id, Hin. }
  destruct (new_item_rows_joined s id (items invoice) (wf_store_products s Hwf) Hps
              (invoice_items s)) as [joined [Ej [Efst HF]]].
  fold rows in Ej, Efst.
  assert (Esel : select_items id (created now invoice s) = joined).
  { unfold select_items, items_join_products, created, join.
    cbn [invoice_items products]. fold id. fold rows.
    rewrite flat_map_app, filter_app.
    rewrite (filter_none _ (flat_map _ (invoice_items s))).
    - cbn [app]. unfold join in Ej. rewrite Ej. apply filter_all.
      intros [ii p] Hin. cbn [fst]. apply Hnew. rewrite <- Efst.
      apply (in_map fst) in Hin. exact Hin.
    - intros [ii p] Hin. apply in_flat_map in Hin. destruct Hin as [ii' [Hii Hin]].
      apply in_map_iff in Hin. destruct Hin as [p' [E _]]. inversion E; subst.
      cbn [fst]. apply Hold, Hii. }
  rewrite Esel. split; [|exact HF].
  rewrite Efst. unfold item_rows, created. cbn [invoice_items]. fold id. fold rows.
  rewrite filter_app, (filter_none _ (invoice_items s)) by exact Hold.
  cbn [app]. symmetry. apply filter_all, Hnew.
Qed.

(** The first query of [get_invoice] on a freshly created invoice returns
    the new row joined with the first client row of the request's
    [client_id]. *)
Lemma select_invoice_created now invoice s :
  In (client_id invoice) (map c_id (clients s)) ->
  exists c,
    In c (clients s) /\ c_id c = client_id invoice
    /\ fetchone (select_invoice (new_invoice_id s) (created now invoice s))
       = Some (new_invoice_row now invoice s, c).
Proof.
  intros Hc.
  destruct (filter_key_present c_id _ _ Hc) as [c [cs [Ec Hid]]].
  assert (Hin : In c (clients s)).
  { assert (Hf : In c (filter (fun a => c_id a =? client_id invoice) (clients s)))
      by (rewrite Ec; left; reflexivity).
    apply filter_In in Hf. tauto. }
  exists c. split; [exact Hin|]. split; [exact Hid|].
  unfold select_invoice, invoices_join_clients, created, join. cbn [invoices clients].
  rewrite flat_map_app, filter_app.
  rewrite (filter_none _ (flat_map _ (invoices s))).
  - cbn [app flat_map]. rewrite app_nil_r.
    assert (Ef : filter (fun c0 => i_client_id (new_invoice_row now invoice s) =? c_id c0)
                   (clients s) = c :: cs).
    { rewrite <- Ec. apply filter_ext. intros q. apply Z.eqb_sym. }
    rewrite Ef. cbn [map filter fst new_invoice_row i_id].
    rewrite Z.eqb_refl. reflexivity.
  - intros [i c0] Hi. apply in_flat_map in Hi. destruct Hi as [i' [Hi' Hi]].
    apply in_map_iff in Hi. destruct Hi as [c' [E _]]. inversion E; subst.
    cbn [fst]. apply Z.eqb_neq.
    pose proof (next_rowid_above i_id (invoices s) i Hi') as Hlt.
    unfold new_invoice_id. lia.
Qed.

(** When the three checks pass and every quantity binds,
    [create_invoice] succeeds: it leaves the store [created] and returns the
    response built there. *)
Lemma create_invoice_run now invoice s :
  In (client_id invoice) (map c_id (clients s)) ->
  ~ In (invoice_no invoice) (map i_invoice_no (invoices s)) ->
  forallb (product_exists s) (items invoice) = true ->
  quantities_in_int64 (items invoice) = true ->
  exists c,
    In c (clients s) /\ c_id c = client_id invoice
    /\ create_invoice now invoice s
       = (Return (build_response (new_invoice_row now invoice s, c)
                    (select_items (new_invoice_id s) (created now invoice s))),
          created now invoice s).
Proof.
  intros Hc Hno Hps Hq.
  destruct (select_invoice_created now invoice s Hc) as [c [Hin [Hid Esel]]].
  exists c. split; [exact Hin|]. split; [exact Hid|].
  unfold create_invoice, try_except, with_get_db.
  rewrite (block_created now invoice s Hc Hno Hps Hq).
  rewrite (get_invoice_found _ _ _ Esel). reflexivity.
Qed.

Lemma Forall2_map_eq {A B C} (f : A -> C) (g : B -> C) (R : A -> B -> Prop)
    (l1 : list A) (l2 : list B) :
  (forall a b, R a b -> f a = g b) -> Forall2 R l1 l2 -> map f l1 = map g l2.
Proof.
  intros HR HF. induction HF as [|a b l1 l2 Hab _ IH]; cbn [map]; [reflexivity|].
  rewrite (HR a b Hab), IH. reflexivity.
Qed.

(** The subtotal [get_invoice] recomputes over the stored rows of a new
    invoice is the subtotal the first loop of [create_invoice] computed. *)
Lemma stored_sum s (id : Z) (its : list InvoiceItem)
    (joined : list (InvoiceItemRow num * ProductRow num)) :
  Forall2 (stored_for s id) its joined ->
  forall subtotal,
    fold_left add (map ir_subtotal (map item_view joined)) subtotal
    = fold_left (charge s) its subtotal.
Proof.
  intros HF. induction HF as [|item row its joined Hst _ IH]; intros subtotal;
    cbn [map fold_left]; [reflexivity|].
  rewrite IH. f_equal.
  destruct Hst as [_ [_ [Hq [Hp Hprice]]]].
  unfold charge. rewrite Hp. cbn [item_view ir_subtotal]. rewrite Hprice, Hq. reflexivity.
Qed.

Lemma invoice_row_created now invoice s :
  invoice_row (new_invoice_id s) (created now invoice s)
  = Some (new_invoice_row now invoice s).
Proof.
  unfold invoice_row, created. cbn [invoices]. rewrite find_filter, filter_app.
  rewrite (filter_none _ (invoices s)).
  - cbn [app filter new_invoice_row i_id]. rewrite Z.eqb_refl. reflexivity.
  - intros i Hi. apply Z.eqb_neq.
    pose proof (next_rowid_above i_id (invoices s) i Hi) as Hlt.
    unfold new_invoice_id. lia.
Qed.

(** What [get_invoice] answers has the id it was asked for. *)
Lemma get_invoice_id id s (r : InvoiceResponse num) s' :
  get_invoice id s = (Return r, s') -> r_id r = id /\ s' = s.
Proof.
  intros Hget. destruct (get_invoice_inv id s r s' Hget) as [[i c] [E [Er Es]]].
  subst r s'.
  apply select_invoice_head in E. destruct E as [_ [_ [Hid _]]].
  split; [|reflexivity].
  unfold build_response. destruct (build_items _). exact Hid.
Qed.


(** C6: when [create_invoice] succeeds, [get_invoice] on the id of its
    response, run on the store it left, returns that same response: the
    subtotal and tax_amount it recomputes from the stored item rows and tax
    rate, and the total it reads, are those create returned. *)
Theorem get_invoice_after_create now invoice s (r : InvoiceResponse num) s' :
  create_invoice now invoice s = (Return r, s') ->
  get_invoice (r_id r) s' = (Return r, s')
  /\ r_subtotal r
     = sum (map (fun row => mul (ii_unit_price (fst row)) (of_int (ii_quantity (fst row))))
                (select_items (r_id r) s'))
  /\ r_tax_amount r = mul (r_subtotal r) (div (r_tax r) (of_int 100))
  /\ exists row, invoice_row (r_id r) s' = Some row
                 /\ r_tax r = i_tax row /\ r_total r = i_total row.
Proof.
  intros Hcreate.
  destruct (create_invoice_inv now invoice s r s' Hcreate) as [Hc [_ [_ [Es' Hget]]]].
  destruct (get_invoice_id _ _ _ _ Hget) as [Hid _].
  rewrite Hid. split; [exact Hget|].
  destruct (select_invoice_created now invoice s Hc) as [c [_ [_ Esel]]].
  rewrite Es' in Hget |- *. rewrite (get_invoice_found _ _ _ Esel) in Hget.
  inversion Hget as [Er]. unfold build_response. rewrite build_items_spec.
  cbn [r_subtotal r_tax_amount r_tax r_total new_invoice_row i_tax i_total].
  rewrite map_map. split; [reflexivity|]. split; [reflexivity|].
  exists (new_invoice_row now invoice s).
  split; [apply invoice_row_created|]. split; reflexivity.
Qed.


(** ** The schema constraints are kept by the service *)

Lemma nodupb_iff {A} (eqb : A -> A -> bool) (l : list A) :
  (forall x y, eqb x y = true <-> x = y) ->
  nodupb eqb l = true <-> NoDup l.
Proof.
  intros Heqb. induction l as [|x l IH]; cbn [nodupb].
  - split; [constructor|reflexivity].
  - rewrite andb_true_iff, negb_true_iff, IH. split.
    + intros [Hx Hl]. constructor; [|exact Hl]. intros Hin.
      assert (Hex : existsb (eqb x) l = true).
      { apply existsb_exists. exists x. split; [exact Hin|apply Heqb; reflexivity]. }
      congruence.
    + intros Hnd. inversion Hnd as [|? ? Hx Hl]; subst. split; [|exact Hl].
      destruct (existsb (eqb x) l) eqn:Hex; [|reflexivity].
      apply existsb_exists in Hex. destruct Hex as [y [Hy E]].
      apply Heqb in E. subst y. contradiction.
Qed.

Lemma wf_store_ok s : wf_store s = true <-> store_ok s.
Proof.
  unfold wf_store. rewrite !andb_true_iff.
  rewrite !(nodupb_iff Z.eqb) by (intros; apply Z.eqb_eq).
  rewrite (nodupb_iff String.eqb) by (intros; apply String.eqb_eq).
  rewrite forallb_forall. split.
  - intros [[[[[H1 H2] H3] H4] H5] H6]. split; try assumption.
    intros ii Hii. specialize (H6 ii Hii). apply existsb_exists in H6.
    destruct H6 as [id [Hid E]]. apply Z.eqb_eq in E. rewrite E. exact Hid.
  - intros [H1 H2 H3 H4 H5 H6]. repeat split; try assumption.
    intros ii Hii. apply existsb_exists. exists (ii_invoice_id ii).
    split; [apply H6, Hii|apply Z.eqb_refl].
Qed.

Lemma NoDup_snoc {A} (l : list A) (a : A) : NoDup l -> ~ In a l -> NoDup (l ++ [a]).
Proof.
  intros Hnd Ha. apply NoDup_app; [exact Hnd|repeat constructor; intros []|].
  intros x Hx [E|[]]. subst x. contradiction.
Qed.

Lemma new_item_rows_ids (ps : list (ProductRow num)) (id : Z) (its : list InvoiceItem) :
  forall table,
    NoDup (map ii_id table) ->
    NoDup (map ii_id (table ++ new_item_rows ps id table its)).
Proof.
  induction its as [|item its IH]; intros table Hnd; cbn [new_item_rows].
  - rewrite app_nil_r. exact Hnd.
  - destruct (hd_error _) as [unit_price|]; [|rewrite app_nil_r; exact Hnd].
    set (row := {| ii_id := next_rowid (map ii_id table); ii_invoice_id := id;
                   ii_product_id := item_product_id item;
                   ii_quantity := item_quantity item; ii_unit_price := unit_price |}).
    replace (table ++ row :: new_item_rows ps id (table ++ [row]) its)
      with ((table ++ [row]) ++ new_item_rows ps id (table ++ [row]) its)
      by (rewrite <- app_assoc; reflexivity).
    apply IH. rewrite map_app. cbn [map]. apply NoDup_snoc; [exact Hnd|].
    apply next_rowid_fresh.
Qed.

Lemma NoDup_map_filter {A B} (key : A -> B) (f : A -> bool) (l : list A) :
  NoDup (map key l) -> NoDup (map key (filter f l)).
Proof.
  induction l as [|a l IH]; cbn [map filter]; intros Hnd; [constructor|].
  inversion Hnd as [|? ? Ha Hl]; subst.
  destruct (f a); [|apply IH, Hl]. cbn [map]. constructor; [|apply IH, Hl].
  intros Hin. apply Ha. apply in_map_iff in Hin. destruct Hin as [b [E Hb]].
  apply filter_In in Hb. rewrite <- E. apply in_map. tauto.
Qed.

(** A store without invoices and without item rows meets the constraints
    as soon as its client and product ids are unique. *)
Lemma store_ok_initial (cs : list ClientRow) (ps : list (ProductRow num)) :
  NoDup (map c_id cs) -> NoDup (map p_id ps) ->
  store_ok {| clients := cs; products := ps; invoices := []; invoice_items := [] |}.
Proof. intros Hc Hp. split; cbn; try assumption; try constructor. intros ii []. Qed.

Lemma store_ok_created now invoice s :
  store_ok s ->
  ~ In (invoice_no invoice) (map i_invoice_no (invoices s)) ->
  store_ok (created now invoice s).
Proof.
  intros [H1 H2 H3 H4 H5 H6] Hno. split; unfold created;
    cbn [clients products invoices invoice_items]; try assumption.
  - rewrite map_app. apply NoDup_snoc; [exact H3|]. apply next_rowid_fresh.
  - apply new_item_rows_ids, H4.
  - rewrite map_app. apply NoDup_snoc; assumption.
  - intros ii Hii. rewrite map_app, in_app_iff. apply in_app_iff in Hii.
    destruct Hii as [Hii|Hii]; [left; apply H6, Hii|right].
    apply new_item_rows_invoice_id in Hii. rewrite Hii. left. reflexivity.
Qed.

Lemma store_ok_deleted id s : store_ok s -> store_ok (deleted id s).
Proof.
  intros [H1 H2 H3 H4 H5 H6]. split;
    unfold deleted, delete_invoice_row, delete_items_of, execute;
    cbn [snd set_invoices set_invoice_items clients products invoices invoice_items];
    try assumption; try (apply NoDup_map_filter; assumption).
  intros ii Hii. apply filter_In in Hii. destruct Hii as [Hii Hneq].
  apply negb_true_iff, Z.eqb_neq in Hneq.
  specialize (H6 ii Hii). apply in_map_iff in H6. destruct H6 as [i [E Hi]].
  apply in_map_iff. exists i. split; [exact E|]. apply filter_In. split; [exact Hi|].
  apply negb_true_iff, Z.eqb_neq. congruence.
Qed.

(** Whatever they answer, [create_invoice] and [delete_invoice] leave a
    store that meets the schema constraints if they found one; [get_invoice]
    and [list_invoices] leave the store as it is. *)
Lemma create_invoice_store now invoice s :
  snd (create_invoice now invoice s) = s
  \/ (~ In (invoice_no invoice) (map i_invoice_no (invoices s))
      /\ forallb (product_exists s) (items invoice) = true
      /\ snd (create_invoice now invoice s) = created now invoice s).
Proof.
  rewrite create_invoice_decided. unfold create_failure.
  destruct (checks_failure s invoice) as [e|] eqn:Hchecks; [left; reflexivity|].
  destruct (quantities_in_int64 (items invoice)); [|left; reflexivity].
  destruct (checks_pass_inv invoice s Hchecks) as [_ [Hno [Hps _]]].
  right. split; [exact Hno|]. split; [exact Hps|]. apply get_invoice_store.
Qed.

Lemma delete_invoice_store id s :
  snd (delete_invoice id s) = s \/ snd (delete_invoice id s) = deleted id s.
Proof.
  rewrite delete_invoice_run. destruct (binds _ _); [|left; reflexivity].
  destruct (fetchone (select_invoice_id id s)); [right|left]; reflexivity.
Qed.

Lemma create_invoice_keeps_wf now invoice s :
  wf_store s = true -> wf_store (snd (create_invoice now invoice s)) = true.
Proof.
  intros Hwf.
  destruct (create_invoice_store now invoice s) as [E|[Hno [_ E]]]; rewrite E;
    [exact Hwf|].
  apply wf_store_ok, store_ok_created; [apply wf_store_ok, Hwf|exact Hno].
Qed.

Lemma delete_invoice_keeps_wf id s :
  wf_store s = true -> wf_store (snd (delete_invoice id s)) = true.
Proof.
  intros Hwf. destruct (delete_invoice_store id s) as [E|E]; rewrite E;
    [exact Hwf|].
  apply wf_store_ok. apply (store_ok_deleted id s). apply wf_store_ok, Hwf.
Qed.

Lemma list_invoices_store s : snd (list_invoices s) = s.
Proof.
  unfold list_invoices, list_invoices_block. unfold_db. reflexivity.
Qed.

(** ** Price snapshots *)

Lemma filter_map_comm {A B} (f : A -> B) (g : B -> bool) (l : list A) :
  filter g (map f l) = map f (filter (fun a => g (f a)) l).
Proof.
  induction l as [|a l IH]; cbn [map filter]; [reflexivity|].
  rewrite IH. destruct (g (f a)); reflexivity.
Qed.

Lemma filter_pair_left {A B} (g : A -> bool) (a : A) (l : list B) :
  filter (fun row : A * B => g (fst row)) (map (pair a) l)
  = if g a then map (pair a) l else [].
Proof.
  induction l as [|b l IH]; cbn [map filter fst]; [destruct (g a); reflexivity|].
  rewrite IH. destruct (g a); reflexivity.
Qed.

Section Repricing.

Variable f : ProductRow num -> ProductRow num.
Hypothesis f_keeps_id : forall p, p_id (f p) = p_id p.

Lemma select_items_update_products id s :
  select_items id (update_products f s) = map (rewritten f) (select_items id s).
Proof.
  unfold select_items, items_join_products, update_products, join.
  cbn [invoice_items products].
  induction (invoice_items s) as [|ii iis IH]; cbn [flat_map]; [reflexivity|].
  rewrite !filter_app, map_app, IH. f_equal.
  rewrite !(filter_pair_left (fun ii0 : InvoiceItemRow num => ii_invoice_id ii0 =? id)).
  destruct (ii_invoice_id ii =? id); [|reflexivity].
  rewrite filter_map_comm.
  rewrite (filter_ext (fun a => ii_product_id ii =? p_id (f a))
                      (fun a => ii_product_id ii =? p_id a))
    by (intros a; rewrite f_keeps_id; reflexivity).
  rewrite !map_map. reflexivity.
Qed.

Lemma product_of_update_products s item :
  product_of (update_products f s) item = option_map f (product_of s item).
Proof.
  unfold product_of, select_product, update_products, fetchone. cbn [products].
  rewrite filter_map_comm.
  rewrite (filter_ext (fun a => p_id (f a) =? item_product_id item)
                      (fun a => p_id a =? item_product_id item))
    by (intros a; rewrite f_keeps_id; reflexivity).
  destruct (filter _ _); reflexivity.
Qed.

(** After the change [get_invoice] answers an invoice it found before as
    before, except that each item is joined with the rewritten product
    row. *)
Lemma get_invoice_update_products id s (row : InvoiceRow num * ClientRow) :
  fetchone (select_invoice id s) = Some row ->
  get_invoice id (update_products f s)
  = (Return (build_response row (map (rewritten f) (select_items id s))),
     update_products f s).
Proof.
  intros Esel.
  assert (E : fetchone (select_invoice id (update_products f s)) = Some row)
    by exact Esel.
  rewrite (get_invoice_found _ _ _ E), select_items_update_products. reflexivity.
Qed.


End Repricing.

(** ** Listing *)

Lemma list_invoices_run s :
  list_invoices s
  = (Return (map summary (order_by_created_at_desc (invoices_join_clients s))), s).
Proof.
  unfold list_invoices, list_invoices_block. unfold_db.
  f_equal. f_equal. apply map_ext. intros [i c]. reflexivity.
Qed.

Lemma insert_created_at_desc_perm (row : InvoiceRow num * ClientRow) rows :
  Permutation (insert_created_at_desc row rows) (row :: rows).
Proof.
  induction rows as [|row' rows IH]; cbn [insert_created_at_desc]; [reflexivity|].
  destruct (i_created_at (fst row) <? i_created_at (fst row')); [|reflexivity].
  rewrite IH. apply perm_swap.
Qed.

Lemma order_by_created_at_desc_perm (rows : list (InvoiceRow num * ClientRow)) :
  Permutation (order_by_created_at_desc rows) rows.
Proof.
  induction rows as [|row rows IH]; cbn [order_by_created_at_desc fold_right];
    [reflexivity|].
  rewrite insert_created_at_desc_perm. apply perm_skip, IH.
Qed.

Lemma insert_created_at_desc_sorted (row : InvoiceRow num * ClientRow) rows :
  StronglySorted created_at_desc rows ->
  StronglySorted created_at_desc (insert_created_at_desc row rows).
Proof.
  induction rows as [|row' rows IH]; cbn [insert_created_at_desc]; intros Hs.
  - constructor; constructor.
  - inversion Hs as [|? ? Hs' Hall]; subst.
    destruct (Z.ltb_spec (i_created_at (fst row)) (i_created_at (fst row'))) as [Hlt|Hge].
    + constructor; [apply IH, Hs'|].
      apply Forall_forall. intros x Hx.
      apply (Permutation_in _ (insert_created_at_desc_perm row rows)) in Hx.
      destruct Hx as [E|Hx].
      * subst x. unfold created_at_desc. lia.
      * rewrite Forall_forall in Hall. apply Hall, Hx.
    + constructor; [exact Hs|]. constructor; [exact Hge|].
      apply Forall_forall. intros x Hx. rewrite Forall_forall in Hall.
      specialize (Hall x Hx). unfold created_at_desc in *. lia.
Qed.

Lemma order_by_created_at_desc_sorted (rows : list (InvoiceRow num * ClientRow)) :
  StronglySorted created_at_desc (order_by_created_at_desc rows).
Proof.
  induction rows as [|row rows IH]; cbn [order_by_created_at_desc fold_right].
  - constructor.
  - apply insert_created_at_desc_sorted, IH.
Qed.

(** A row older than every row of [newer] is inserted after them. *)
Lemma insert_after_newer (row : InvoiceRow num * ClientRow) newer rows :
  (forall y, In y newer -> i_created_at (fst row) < i_created_at (fst y)) ->
  insert_created_at_desc row (newer ++ rows) = newer ++ insert_created_at_desc row rows.
Proof.
  induction newer as [|y newer IH]; cbn [app insert_created_at_desc]; intros Hlt;
    [reflexivity|].
  pose proof (Hlt y (or_introl eq_refl)) as Hy. apply Z.ltb_lt in Hy. rewrite Hy.
  f_equal. apply IH. intros z Hz. apply Hlt. right. exact Hz.
Qed.

Lemma order_after_newer (older newer : list (InvoiceRow num * ClientRow)) :
  (forall x y, In x older -> In y newer -> i_created_at (fst x) < i_created_at (fst y)) ->
  fold_right insert_created_at_desc newer older
  = newer ++ order_by_created_at_desc older.
Proof.
  induction older as [|x older IH]; cbn [fold_right order_by_created_at_desc]; intros Hlt.
  - rewrite app_nil_r. reflexivity.
  - rewrite IH by (intros; apply Hlt; [right|]; assumption).
    apply insert_after_newer. intros y Hy. apply Hlt; [left; reflexivity|exact Hy].
Qed.

(** With unique client ids, an invoice row whose client exists joins with
    exactly one client row. *)
Lemma join_one_client (cs : list ClientRow) (i : InvoiceRow num) :
  NoDup (map c_id cs) ->
  In (i_client_id i) (map c_id cs) ->
  exists c, filter (fun c => i_client_id i =? c_id c) cs = [c].
Proof.
  intros Hnd Hin.
  destruct (filter_key_present c_id _ _ Hin) as [c [cs' [Ec _]]].
  pose proof (filter_key_unique c_id _ _ _ _ Hnd Ec) as Hcs'. subst cs'.
  exists c. rewrite <- Ec. apply filter_ext. intros q. apply Z.eqb_sym.
Qed.

Lemma join_every_invoice (cs : list ClientRow) (invs : list (InvoiceRow num)) :
  NoDup (map c_id cs) ->
  (forall i, In i invs -> In (i_client_id i) (map c_id cs)) ->
  map fst (join (fun i c => i_client_id i =? c_id c) invs cs) = invs.
Proof.
  intros Hnd. unfold join.
  induction invs as [|i invs IH]; cbn [flat_map]; intros Hc; [reflexivity|].
  destruct (join_one_client cs i Hnd (Hc i (or_introl eq_refl))) as [c Ec].
  rewrite Ec. cbn [map app fst]. f_equal. apply IH.
  intros j Hj. apply Hc. right. exact Hj.
Qed.

(** With unique client ids, a successful [create_invoice] adds one row at
    the end of the join that [list_invoices] sorts, and its response
    summarises to the summary of that row. *)
Lemma create_invoice_joined now invoice s (r : InvoiceResponse num) s' :
  NoDup (map c_id (clients s)) ->
  create_invoice now invoice s = (Return r, s') ->
  exists c,
    invoices_join_clients s'
    = invoices_join_clients s ++ [(new_invoice_row now invoice s, c)]
    /\ summary (new_invoice_row now invoice s, c) = summary_of_response r
    /\ clients s' = clients s
    /\ invoices s' = invoices s ++ [new_invoice_row now invoice s]
    /\ In (client_id invoice) (map c_id (clients s)).
Proof.
  intros Hnd Hcreate.
  destruct (create_invoice_inv now invoice s r s' Hcreate) as [Hc [_ [_ [Es' Hget]]]].
  destruct (select_invoice_created now invoice s Hc) as [c [_ [_ Esel]]].
  rewrite Es' in *. rewrite (get_invoice_found _ _ _ Esel) in Hget.
  inversion Hget as [Er]. clear Hget.
  exists c. split; [|split; [|split; [reflexivity|split; [reflexivity|exact Hc]]]].
  - destruct (join_one_client (clients s) (new_invoice_row now invoice s) Hnd Hc)
      as [c' Ec'].
    assert (Ecc : c' = c).
    { unfold select_invoice, invoices_join_clients, created, join in Esel.
      cbn [invoices clients] in Esel.
      rewrite flat_map_app, filter_app in Esel. cbn [flat_map] in Esel.
      rewrite Ec' in Esel. cbn [map app filter fst new_invoice_row i_id] in Esel.
      rewrite Z.eqb_refl in Esel.
      rewrite (filter_none _ (flat_map _ (invoices s))) in Esel.
      - cbn in Esel. congruence.
      - intros [i c0] Hi. apply in_flat_map in Hi. destruct Hi as [i' [Hi' Hi]].
        apply in_map_iff in Hi. destruct Hi as [c'' [E _]]. inversion E; subst.
        cbn [fst]. apply Z.eqb_neq.
        pose proof (next_rowid_above i_id (invoices s) i Hi') as Hlt.
        unfold new_invoice_id. lia. }
    subst c'. unfold invoices_join_clients, created, join. cbn [invoices clients].
    rewrite flat_map_app. cbn [flat_map]. rewrite Ec'. reflexivity.
  - unfold build_response. destruct (build_items _). reflexivity.
Qed.

(** With unique keys on the right, a join keeps, once each and in order,
    the left rows whose key is present on the right. *)
Lemma join_on_key {A B} (fk : A -> Z) (key : B -> Z) (l : list A) (r : list B) :
  NoDup (map key r) ->
  map fst (join (fun a b => fk a =? key b) l r)
  = filter (fun a => existsb (Z.eqb (fk a)) (map key r)) l.
Proof.
  intros Hnd. unfold join.
  induction l as [|a l IH]; cbn [flat_map filter]; [reflexivity|].
  rewrite map_app, IH, map_map. cbn [fst].
  assert (Ef : filter (fun b => fk a =? key b) r = filter (fun b => key b =? fk a) r)
    by (apply filter_ext; intros b; apply Z.eqb_sym).
  rewrite Ef.
  destruct (existsb (Z.eqb (fk a)) (map key r)) eqn:Hex.
  - apply existsb_exists in Hex. destruct Hex as [k [Hk E]].
    apply Z.eqb_eq in E. subst k.
    destruct (filter_key_present key _ _ Hk) as [b [bs [Eb _]]].
    rewrite Eb, (filter_key_unique key _ _ _ _ Hnd Eb). reflexivity.
  - rewrite filter_key_absent; [reflexivity|].
    intros Hin. assert (Hex' : existsb (Z.eqb (fk a)) (map key r) = true).
    { apply existsb_exists. exists (fk a). split; [exact Hin|apply Z.eqb_refl]. }
    congruence.
Qed.

(** C7 (amended): [list_invoices] never writes and returns the summaries
    of the invoice rows joined with their clients, newest [created_at]
    first; with unique client ids that is one summary per stored invoice
    whose client row exists (an invoice whose client is gone is not listed),
    and a store without invoices lists as the empty sequence.  When invoices
    A, B, C are created in that order at strictly increasing times, all
    later than the invoices already stored, the listing is C, B, A followed
    by the listing of the store before. *)
Theorem list_invoices_newest_first s :
  (exists rows : list (InvoiceRow num * ClientRow),
     list_invoices s = (Return (map summary rows), s)
     /\ StronglySorted created_at_desc rows
     /\ Permutation rows (invoices_join_clients s)
     /\ (wf_store s = true ->
         Permutation (map fst rows) (filter (client_present s) (invoices s)))
     /\ (invoices s = [] -> rows = []))
  /\ forall (s1 s2 s3 : Store num) (tA tB tC : Z) (A B C : InvoiceCreate num)
            (rA rB rC : InvoiceResponse num),
       wf_store s = true ->
       (forall i, In i (invoices s) -> i_created_at i < tA) ->
       create_invoice tA A s = (Return rA, s1) ->
       create_invoice tB B s1 = (Return rB, s2) ->
       create_invoice tC C s2 = (Return rC, s3) ->
       tA < tB -> tB < tC ->
       exists older : list (InvoiceListItem num),
         list_invoices s = (Return older, s)
         /\ list_invoices s3
            = (Return (summary_of_response rC :: summary_of_response rB
                         :: summary_of_response rA :: older), s3)
         /\ map li_invoice_no
                [summary_of_response rC; summary_of_response rB; summary_of_response rA]
            = [invoice_no C; invoice_no B; invoice_no A].
Proof.
  split.
  - exists (order_by_created_at_desc (invoices_join_clients s)).
    split; [apply list_invoices_run|].
    split; [apply order_by_created_at_desc_sorted|].
    split; [apply order_by_created_at_desc_perm|].
    split.
    + intros Hwf. rewrite order_by_created_at_desc_perm.
      unfold invoices_join_clients.
      rewrite (join_on_key i_client_id c_id) by apply wf_store_clients, Hwf.
      reflexivity.
    + intros Hnone. unfold invoices_join_clients. rewrite Hnone. reflexivity.
  - intros s1 s2 s3 tA tB tC A B C rA rB rC Hwf Hold HA HB HC HAB HBC.
    pose proof (wf_store_clients s Hwf) as Hnd0.
    destruct (create_invoice_joined tA A s rA s1 Hnd0 HA)
      as [cA [EjA [EsA [EcA [EiA HcA]]]]].
    assert (Hnd1 : NoDup (map c_id (clients s1))) by (rewrite EcA; exact Hnd0).
    destruct (create_invoice_joined tB B s1 rB s2 Hnd1 HB)
      as [cB [EjB [EsB [EcB [EiB HcB]]]]].
    assert (Hnd2 : NoDup (map c_id (clients s2))) by (rewrite EcB; exact Hnd1).
    destruct (create_invoice_joined tC C s2 rC s3 Hnd2 HC)
      as [cC [EjC [EsC [EcC [EiC HcC]]]]].
    set (a := (new_invoice_row tA A s, cA)) in *.
    set (b := (new_invoice_row tB B s1, cB)) in *.
    set (c := (new_invoice_row tC C s2, cC)) in *.
    assert (Ej : invoices_join_clients s3 = invoices_join_clients s ++ [a; b; c]).
    { rewrite EjC, EjB, EjA, <- !app_assoc. reflexivity. }
    assert (Esort : order_by_created_at_desc (invoices_join_clients s3)
                    = [c; b; a] ++ order_by_created_at_desc (invoices_join_clients s)).
    { rewrite Ej. unfold order_by_created_at_desc at 1. rewrite fold_right_app.
      assert (E3 : fold_right insert_created_at_desc [] [a; b; c] = [c; b; a]).
      { assert (H1 : (i_created_at (fst b) <? i_created_at (fst c)) = true)
          by (apply Z.ltb_lt; cbn; lia).
        assert (H2 : (i_created_at (fst a) <? i_created_at (fst c)) = true)
          by (apply Z.ltb_lt; cbn; lia).
        assert (H3 : (i_created_at (fst a) <? i_created_at (fst b)) = true)
          by (apply Z.ltb_lt; cbn; lia).
        cbn [fold_right insert_created_at_desc]. rewrite H1.
        cbn [insert_created_at_desc]. rewrite H2, H3. reflexivity. }
      rewrite E3. apply order_after_newer.
      intros [i0 c0] y Hx Hy. apply in_join in Hx. destruct Hx as [Hi0 _].
      pose proof (Hold i0 Hi0) as Hlt. cbn [fst].
      destruct Hy as [E|[E|[E|[]]]]; subst y; cbn; lia. }
    exists (map summary (order_by_created_at_desc (invoices_join_clients s))).
    split; [apply list_invoices_run|].
    split.
    { rewrite list_invoices_run, Esort. cbn [app map]. rewrite EsA, EsB, EsC.
      reflexivity. }
    rewrite <- EsA, <- EsB, <- EsC. reflexivity.
Qed.

End Properties.

(** * The properties at the spec's example

    One client (Acme), products Widget at 10 and Gadget at 4, exact rational
    arithmetic. *)

Import Examples.

Lemma acme_exists : In 1 (map c_id (clients db0)).
Proof. left. reflexivity. Qed.

Lemma db0_wf : wf_store db0 = true.
Proof. reflexivity. Qed.

Lemma db0_no_invoice_no (no : string) : ~ In no (map i_invoice_no (invoices db0)).
Proof. intros []. Qed.



Lemma create_invoice_unknown_client_witness :
  ~ In 7 (map c_id (clients db0))
  /\ create_invoice 100 inv_no_client db0
     = (Raise (HTTPException 404 "Client with id 7 not found"), db0)
  /\ response_status 201 (fst (create_invoice 100 inv_no_client db0)) = 404.
Proof.
  assert (Hn : ~ In (client_id inv_no_client) (map c_id (clients db0))).
  { cbn. intros [E|[]]. discriminate. }
  split; [exact Hn|].
  destruct (create_invoice_unknown_client 100 inv_no_client db0 Hn) as [E [_ Est]].
  split; [exact E|exact Est].
Defined.

(** C2 for every integer [client_id] fails: [2 ** 63] names no client, and
    the request is answered with 500, not 404, the SELECT of line 72 being
    unable to bind it.  The store is unchanged all the same. *)
Lemma create_invoice_unknown_client_counterexample :
  ~ In (client_id Overflow.inv_client_2_63) (map c_id (clients db0))
  /\ create_invoice 100 Overflow.inv_client_2_63 db0 = (Raise int_too_large, db0)
  /\ create_invoice 100 Overflow.inv_client_2_63 db0
     <> (Raise (client_not_found Overflow.inv_client_2_63), db0)
  /\ response_status 201 (fst (create_invoice 100 Overflow.inv_client_2_63 db0)) = 500.
Proof.
  assert (E : create_invoice 100 Overflow.inv_client_2_63 db0 = (Raise int_too_large, db0))
    by (vm_compute; reflexivity).
  split; [cbn; intros [E'|[]]; discriminate E'|].
  split; [exact E|]. rewrite E. split; [|reflexivity].
  unfold int_too_large, client_not_found. intros E'. inversion E'.
Qed.

Lemma create_invoice_duplicate_invoice_no_witness :
  In "INV-1" (map i_invoice_no (invoices db1))
  /\ create_invoice 101 inv1 db1
     = (Raise (HTTPException 400 "Invoice number INV-1 already exists"), db1).
Proof.
  split; [left; reflexivity|].
  exact (proj1 (create_invoice_duplicate_invoice_no 101 inv1 db1
                  (or_introl eq_refl) (or_introl eq_refl))).
Defined.

Lemma create_invoice_unknown_product_witness :
  create_invoice 100 inv_no_product db0
  = (Raise (HTTPException 404 "Product with id 5 not found"), db0)
  /\ invoices (snd (create_invoice 100 inv_no_product db0)) = []
  /\ invoice_items (snd (create_invoice 100 inv_no_product db0)) = [].
Proof.
  assert (Hpre : forallb (product_exists db0)
                         [{| item_product_id := 1; item_quantity := 2 |}] = true)
    by reflexivity.
  assert (Hfit : quantities_fit_float [{| item_product_id := 1; item_quantity := 2 |}] = true)
    by reflexivity.
  assert (Hitem : product_exists db0 {| item_product_id := 5; item_quantity := 1 |} = false)
    by reflexivity.
  pose proof (create_invoice_unknown_product 100 inv_no_product db0
                [{| item_product_id := 1; item_quantity := 2 |}]
                [{| item_product_id := 6; item_quantity := 1 |}]
                {| item_product_id := 5; item_quantity := 1 |}
                acme_exists (db0_no_invoice_no _) eq_refl Hpre Hfit Hitem)
    as [E _].
  split; [exact E|]. rewrite E. split; reflexivity.
Defined.

(** C4 for every integer product id and quantity fails.  The product id
    [2 ** 63] names no product, and the request is answered with 500, not
    404 (line 86 cannot bind it).  And when the item before the missing
    product asks for [2 ** 1024] dimes, line 91 raises on that item: 500
    again, and the missing product is never looked up.  The store is
    unchanged in both cases. *)
Lemma create_invoice_unknown_product_counterexample :
  (forallb (product_exists db0) (items Overflow.inv_product_2_63) = false
   /\ create_invoice 100 Overflow.inv_product_2_63 db0 = (Raise int_too_large, db0)
   /\ response_status 201 (fst (create_invoice 100 Overflow.inv_product_2_63 db0)) = 500)
  /\ (map (product_exists FloatExamples.fdb0) (items Overflow.inv_huge_then_missing)
      = [true; false]
      /\ create_invoice 100 Overflow.inv_huge_then_missing FloatExamples.fdb0
         = (Raise float_too_large, FloatExamples.fdb0)
      /\ response_status 201
           (fst (create_invoice 100 Overflow.inv_huge_then_missing FloatExamples.fdb0))
         = 500).
Proof.
  split; (split; [reflexivity|]); vm_compute; split; reflexivity.
Qed.

Lemma get_invoice_after_create_witness :
  create_invoice 100 inv1 db0 = (Return r1, db1)
  /\ get_invoice (r_id r1) db1 = (Return r1, db1).
Proof.
  assert (E : create_invoice 100 inv1 db0 = (Return r1, db1))
    by (vm_compute; reflexivity).
  split; [exact E|].
  exact (proj1 (get_invoice_after_create 100 inv1 db0 r1 db1 E)).
Defined.

Lemma list_invoices_newest_first_witness :
  wf_store db1 = true
  /\ create_invoice 101 inv2 db1 = (Return r2, db2)
  /\ create_invoice 102 inv3 db2 = (Return r3, db3)
  /\ create_invoice 103 inv4 db3 = (Return r4, db4)
  /\ list_invoices db1 = (Return [summary_of_response r1], db1)
  /\ list_invoices db4
     = (Return [summary_of_response r4; summary_of_response r3;
                summary_of_response r2; summary_of_response r1], db4)
  /\ map li_invoice_no
         [summary_of_response r4; summary_of_response r3; summary_of_response r2]
     = ["INV-4"; "INV-3"; "INV-2"]%string
  /\ exists rows,
       list_invoices db1 = (Return (map summary rows), db1)
       /\ Permutation (map fst rows) (filter (client_present db1) (invoices db1)).
Proof.
  assert (Hwf : wf_store db1 = true) by reflexivity.
  assert (E2 : create_invoice 101 inv2 db1 = (Return r2, db2)) by (vm_compute; reflexivity).
  assert (E3 : create_invoice 102 inv3 db2 = (Return r3, db3)) by (vm_compute; reflexivity).
  assert (E4 : create_invoice 103 inv4 db3 = (Return r4, db4)) by (vm_compute; reflexivity).
  assert (E1 : list_invoices db1 = (Return [summary_of_response r1], db1))
    by (vm_compute; reflexivity).
  assert (Hold : forall i, In i (invoices db1) -> (i_created_at i < 101)%Z).
  { intros i [E|[]]. subst i. reflexivity. }
  destruct (list_invoices_newest_first db1) as [[rows [Hrows [_ [_ [Hperm _]]]]] Habc].
  destruct (Habc db2 db3 db4 101 102 103 inv2 inv3 inv4 r2 r3 r4
              Hwf Hold E2 E3 E4 eq_refl eq_refl)
    as [older [H0 [H4 Hno]]].
  assert (Eolder : older = [summary_of_response r1]) by congruence.
  subst older.
  split; [exact Hwf|]. split; [exact E2|]. split; [exact E3|]. split; [exact E4|].
  split; [exact E1|]. split; [exact H4|]. split; [exact Hno|].
  exists rows. split; [exact Hrows|exact (Hperm Hwf)].
Defined.

(** C7 as the spec words it fails twice.  Not every invoice gets a
    summary: in [db2_no_clients] two invoices are stored and the listing is
    empty, their client row being gone (the query is an inner join).  And
    A, B, C created in that order do not list as C, B, A when their
    [created_at] are equal: the three invoices of [tdb3], all created at
    time 100, list oldest first (the ORDER BY has no second key). *)
Lemma list_invoices_newest_first_counterexample :
  (map i_invoice_no (invoices db2_no_clients) = ["INV-1"; "INV-2"]
   /\ list_invoices db2_no_clients = (Return [], db2_no_clients))
  /\ (response_status 201 (fst (create_invoice 100 inv1 db0)) = 201
      /\ response_status 201 (fst (create_invoice 100 inv2 SameTime.tdb1)) = 201
      /\ response_status 201 (fst (create_invoice 100 inv3 SameTime.tdb2)) = 201
      /\ match fst (list_invoices SameTime.tdb3) with
         | Return l => map li_invoice_no l = ["INV-1"; "INV-2"; "INV-3"]
         | Raise _ => False
         end).
Proof. vm_compute. repeat split. Qed.


(** C8 for every integer id fails: no invoice row has the id [2 ** 63],
    and [delete_invoice] answers 500 for it, not 404 (line 270 cannot bind
    it); so does [get_invoice]. *)
Lemma delete_invoice_spec_counterexample :
  invoice_row (2 ^ 63) db1 = None
  /\ delete_invoice (2 ^ 63) db1 = (Raise int_too_large, db1)
  /\ response_status 204 (fst (delete_invoice (2 ^ 63) db1)) = 500
  /\ get_invoice (2 ^ 63) db1 = (Raise int_too_large, db1)
  /\ response_status 200 (fst (get_invoice (2 ^ 63) db1)) = 500.
Proof. vm_compute. repeat split. Qed.



(** The example of the spec: three widgets at 10 with 10% tax give
    subtotal 30, tax_amount 3 and total 33, returned and stored. *)
Example create_invoice_spec_example :
  create_invoice 100 inv1 db0 = (Return r1, db1)
  /\ this (r_subtotal r1) = 30 # 1
  /\ this (r_tax_amount r1) = 3 # 1
  /\ this (r_total r1) = 33 # 1
  /\ map (fun i => this (i_total i)) (invoices db1) = [33 # 1].
Proof. vm_compute. repeat split. Qed.


(** The stored total and the recomputed amounts part ways as soon as a
    product row vanishes: the item row no longer joins, so [get_invoice]
    returns no item, subtotal 0 and tax_amount 0 next to the stored
    total 33. *)
Example get_invoice_after_product_vanished :
  match fst (get_invoice 1 db1_no_products) with
  | Return r =>
      r_items r = [] /\ r_subtotal r = of_int 0 /\ r_tax_amount r = of_int 0
      /\ r_total r = of_int 33
  | Raise _ => False
  end.
Proof. vm_compute. repeat split; apply Qc_is_canon; reflexivity. Qed.

(** Deleting the only invoice of [db1] gives back [db0]; reading or
    deleting it again answers 404. *)
Example delete_invoice_example :
  delete_invoice 1 db1 = (Return tt, db0)
  /\ get_invoice 1 db0 = (Raise invoice_not_found, db0)
  /\ delete_invoice 1 db0 = (Raise invoice_not_found, db0)
  /\ delete_invoice 2 db1 = (Raise invoice_not_found, db1).
Proof. vm_compute. repeat split. Qed.

(** * Further properties of the handlers *)

Section Service.

Context {num : Type} `{Num num}.

Implicit Types (s : Store num) (invoice : InvoiceCreate num).

Ltac run_db :=
  unfold try_except, with_get_db, bind, query, execute, raise, ret.

(** ** Joins on a key *)

Lemma NoDup_key_inj {A} (key : A -> Z) (l : list A) (a b : A) :
  NoDup (map key l) -> In a l -> In b l -> key a = key b -> a = b.
Proof.
  induction l as [|x l IH]; cbn [map In]; intros Hnd Ha Hb E; [contradiction|].
  inversion Hnd as [|? ? Hx Hl]; subst.
  destruct Ha as [Ha|Ha], Hb as [Hb|Hb]; subst.
  - reflexivity.
  - exfalso. apply Hx. rewrite E. apply in_map, Hb.
  - exfalso. apply Hx. rewrite <- E. apply in_map, Ha.
  - apply IH; assumption.
Qed.

Lemma join_filter_left {A B} (on : A -> B -> bool) (f : A -> bool)
    (l : list A) (r : list B) :
  join on (filter f l) r = filter (fun row => f (fst row)) (join on l r).
Proof.
  unfold join. induction l as [|a l IH]; cbn [filter flat_map]; [reflexivity|].
  rewrite filter_app, <- IH, (filter_pair_left f).
  destruct (f a); reflexivity.
Qed.

Lemma filter_filter_weaker {A} (f g : A -> bool) (l : list A) :
  (forall a, f a = true -> g a = true) ->
  filter f (filter g l) = filter f l.
Proof.
  intros Hfg. induction l as [|a l IH]; cbn [filter]; [reflexivity|].
  destruct (g a) eqn:Eg; cbn [filter]; rewrite IH; [reflexivity|].
  destruct (f a) eqn:Ef; [|reflexivity].
  rewrite (Hfg a Ef) in Eg. discriminate.
Qed.

Lemma wf_store_invoices s : wf_store s = true -> NoDup (map i_id (invoices s)).
Proof. intros Hwf. apply wf_store_ok in Hwf. apply Hwf. Qed.

(** ** Reading *)

(** X1: [get_invoice] on an id that no invoice row has leaves the store
    as it is and answers 404 "Invoice not found" when the id is in the
    signed 64-bit range, and 500 when it is not (the query cannot bind
    it). *)
Theorem get_invoice_unknown_id id s :
  ~ In id (map i_id (invoices s)) ->
  get_invoice id s
  = (Raise (if in_int64 id then invoice_not_found else int_too_large), s)
  /\ response_status 200 (fst (get_invoice id s))
     = (if in_int64 id then 404 else 500).
Proof.
  intros Hn. rewrite (get_invoice_absent id s Hn). unfold no_invoice.
  destruct (in_int64 id); split; reflexivity.
Qed.

(** X2: the first query of [get_invoice] joins [invoices] with [clients],
    so an invoice whose client row is gone is answered with 404 although its
    row is stored. *)
Theorem get_invoice_client_vanished s (i : InvoiceRow num) :
  wf_store s = true ->
  In i (invoices s) ->
  client_present s i = false ->
  get_invoice (i_id i) s = (Raise invoice_not_found, s).
Proof.
  intros Hwf Hi Hc.
  assert (E : select_invoice (i_id i) s = []).
  { unfold select_invoice. apply filter_none. intros [i' c] Hin.
    apply in_join in Hin. destruct Hin as [Hi' [Hc' Hon]]. cbn [fst].
    apply Z.eqb_neq. intros Eid.
    assert (Ei : i' = i)
      by (apply (NoDup_key_inj i_id (invoices s)); auto using wf_store_invoices).
    subst i'. apply Z.eqb_eq in Hon.
    assert (Hex : client_present s i = true).
    { unfold client_present. apply existsb_exists. exists (c_id c).
      split; [apply in_map, Hc'|apply Z.eqb_eq, Hon]. }
    congruence. }
  rewrite get_invoice_none by (rewrite E; reflexivity).
  rewrite (binds_key _ _ (in_map i_id _ _ Hi)). reflexivity.
Qed.

(** X3: [get_invoice] and [list_invoices] read the same join, so an id can
    be read exactly when the listing has a summary with that id. *)
Theorem get_invoice_iff_listed id s :
  (exists r, get_invoice id s = (Return r, s))
  <-> (exists l, list_invoices s = (Return l, s) /\ In id (map li_id l)).
Proof.
  rewrite list_invoices_run. split.
  - intros [r Hr].
    destruct (get_invoice_inv id s r s Hr) as [[i c] [E _]].
    eexists. split; [reflexivity|].
    unfold fetchone, select_invoice in E.
    destruct (filter _ _) as [|row rows] eqn:Ef; [discriminate|].
    inversion E; subst row.
    assert (Hin : In (i, c) (filter (fun ic => i_id (fst ic) =? id)
                               (invoices_join_clients s)))
      by (rewrite Ef; left; reflexivity).
    apply filter_In in Hin. destruct Hin as [Hj Hid]. apply Z.eqb_eq in Hid.
    rewrite map_map. apply in_map_iff. exists (i, c). split; [exact Hid|].
    apply (Permutation_in _ (Permutation_sym (order_by_created_at_desc_perm _))), Hj.
  - intros [l [El Hin]]. inversion El; subst l. clear El.
    rewrite map_map in Hin. apply in_map_iff in Hin. destruct Hin as [[i c] [Hid Hrow]].
    apply (Permutation_in _ (order_by_created_at_desc_perm _)) in Hrow.
    assert (Hf : In (i, c) (select_invoice id s)).
    { unfold select_invoice. apply filter_In. split; [exact Hrow|].
      apply Z.eqb_eq. exact Hid. }
    destruct (select_invoice id s) as [|row rows] eqn:Esel; [contradiction|].
    eexists. apply get_invoice_found. rewrite Esel. reflexivity.
Qed.

(** X4: with unique client ids, [list_invoices] lists each invoice whose
    client row exists once and no other: invoices whose client is gone are
    left out by the join. *)
Theorem list_invoices_with_client s :
  wf_store s = true ->
  exists l,
    list_invoices s = (Return l, s)
    /\ Permutation (map li_id l) (map i_id (filter (client_present s) (invoices s)))
    /\ (List.length l <= List.length (invoices s))%nat.
Proof.
  intros Hwf. rewrite list_invoices_run. eexists. split; [reflexivity|].
  assert (Ej : map fst (invoices_join_clients s) = filter (client_present s) (invoices s))
    by (apply (join_on_key i_client_id c_id), wf_store_clients, Hwf).
  assert (Hp : Permutation
                 (map li_id (map summary (order_by_created_at_desc (invoices_join_clients s))))
                 (map i_id (filter (client_present s) (invoices s)))).
  { rewrite <- Ej, !map_map. cbn [summary li_id].
    apply Permutation_map, order_by_created_at_desc_perm. }
  split; [exact Hp|].
  apply Permutation_length in Hp. rewrite !length_map in Hp. rewrite length_map, Hp.
  apply filter_length_le.
Qed.

(** ** Creating *)

Lemma new_item_rows_fields s (id : Z) (its : list InvoiceItem) :
  forallb (product_exists s) its = true ->
  forall table,
    map ii_product_id (new_item_rows (products s) id table its)
    = map item_product_id its
    /\ map ii_quantity (new_item_rows (products s) id table its)
       = map item_quantity its.
Proof.
  induction its as [|item its IH]; cbn [forallb new_item_rows map]; intros Hall table;
    [split; reflexivity|].
  apply andb_prop in Hall. destruct Hall as [Hitem Hall].
  unfold product_exists, product_of, select_product, fetchone in Hitem.
  destruct (filter (fun p => p_id p =? item_product_id item) (products s))
    as [|p ps]; [discriminate|].
  cbn [map hd_error ii_product_id ii_quantity].
  destruct (IH Hall (table ++
              [{| ii_id := next_rowid (map ii_id table); ii_invoice_id := id;
                  ii_product_id := item_product_id item;
                  ii_quantity := item_quantity item;
                  ii_unit_price := p_price p |}])) as [E1 E2].
  rewrite E1, E2. split; reflexivity.
Qed.

Lemma items_failure_some s (its : list InvoiceItem) (e : exn) :
  items_failure s its = Some e ->
  exists item, In item its /\ item_failure s item = Some e.
Proof.
  induction its as [|item its IH]; cbn [items_failure]; [discriminate|].
  destruct (item_failure s item) as [e'|] eqn:E; intros E'.
  - exists item. split; [left; reflexivity|congruence].
  - destruct (IH E') as [item' [Hin Hf]]. exists item'.
    split; [right; exact Hin|exact Hf].
Qed.

Lemma item_failure_cases s (item : InvoiceItem) (e : exn) :
  item_failure s item = Some e ->
  (product_exists s item = false
   /\ e = if in_int64 (item_product_id item)
          then product_not_found item else sqlite_overflow)
  \/ (fits_float (item_quantity item) = false /\ e = float_overflow).
Proof.
  unfold item_failure. destruct (product_exists s item) eqn:Hp.
  - rewrite (binds_key _ _ (proj1 (product_exists_In s item) Hp)).
    destruct (fits_float _); [discriminate|]. intros E. right.
    split; [reflexivity|congruence].
  - rewrite (binds_no_key _ _ (product_missing_not_In s item Hp)).
    intros E. left. split; [reflexivity|].
    destruct (in_int64 _); congruence.
Qed.


(** X6: a successful [create_invoice] only appends: tables [clients] and
    [products] and the stored invoice and item rows are kept, one invoice
    row with the request's fields and the response's id is added, and one
    item row per request item, in request order, with that invoice id and
    the item's product and quantity. *)
Theorem create_invoice_appends now invoice s (r : InvoiceResponse num) s' :
  create_invoice now invoice s = (Return r, s') ->
  clients s' = clients s
  /\ products s' = products s
  /\ exists (row : InvoiceRow num) (rows : list (InvoiceItemRow num)),
       invoices s' = invoices s ++ [row]
       /\ invoice_items s' = invoice_items s ++ rows
       /\ i_id row = r_id r
       /\ ~ In (r_id r) (map i_id (invoices s))
       /\ i_invoice_no row = invoice_no invoice
       /\ i_issue_date row = issue_date invoice
       /\ i_due_date row = due_date invoice
       /\ i_client_id row = client_id invoice
       /\ i_tax row = tax invoice
       /\ i_created_at row = now
       /\ Forall (fun ii => ii_invoice_id ii = r_id r) rows
       /\ map ii_product_id rows = map item_product_id (items invoice)
       /\ map ii_quantity rows = map item_quantity (items invoice).
Proof.
  intros Hcreate.
  destruct (create_invoice_inv now invoice s r s' Hcreate) as [_ [_ [Hps [Es' Hget]]]].
  destruct (get_invoice_id _ _ _ _ Hget) as [Hid _]. subst s'.
  split; [reflexivity|]. split; [reflexivity|].
  exists (new_invoice_row now invoice s),
         (new_item_rows (products s) (new_invoice_id s) (invoice_items s) (items invoice)).
  destruct (new_item_rows_fields s (new_invoice_id s) (items invoice) Hps (invoice_items s))
    as [E1 E2].
  rewrite Hid. repeat split; try reflexivity; try assumption.
  - apply (next_rowid_fresh i_id).
  - apply Forall_forall. intros ii Hii. eapply new_item_rows_invoice_id, Hii.
Qed.

(** X7: the response of a successful [create_invoice] carries the
    request's invoice number, dates and tax rate, and the client row of the
    request's [client_id]. *)
Theorem create_invoice_echoes_request now invoice s (r : InvoiceResponse num) s' :
  create_invoice now invoice s = (Return r, s') ->
  r_invoice_no r = invoice_no invoice
  /\ r_issue_date r = issue_date invoice
  /\ r_due_date r = due_date invoice
  /\ r_tax r = tax invoice
  /\ cr_id (r_client r) = client_id invoice
  /\ exists c, In c (clients s)
               /\ c_id c = client_id invoice
               /\ cr_name (r_client r) = c_name c
               /\ cr_address (r_client r) = c_address c
               /\ cr_company_registration_no (r_client r) = c_company_registration_no c.
Proof.
  intros Hcreate.
  destruct (create_invoice_inv now invoice s r s' Hcreate) as [Hc [_ [_ [Es' Hget]]]].
  destruct (select_invoice_created now invoice s Hc) as [c [Hin [Hid Esel]]].
  rewrite Es' in Hget. rewrite (get_invoice_found _ _ _ Esel) in Hget.
  inversion Hget as [Er]. unfold build_response. destruct (build_items _).
  cbn. repeat split; try assumption.
  exists c. repeat split; assumption.
Qed.

(** X8: once an invoice was created, a further create request with its
    invoice number, for any existing client and whatever its items, is
    answered with 400 and changes nothing. *)
Theorem create_invoice_twice now now' invoice invoice' s (r : InvoiceResponse num) s' :
  create_invoice now invoice s = (Return r, s') ->
  invoice_no invoice' = invoice_no invoice ->
  In (client_id invoice') (map c_id (clients s)) ->
  create_invoice now' invoice' s' = (Raise (invoice_no_exists invoice'), s').
Proof.
  intros Hcreate Eno Hc.
  destruct (create_invoice_inv now invoice s r s' Hcreate) as [_ [_ [_ [Es' _]]]].
  apply create_invoice_raises, block_duplicate_invoice_no; subst s'.
  - exact Hc.
  - unfold created. cbn [invoices]. rewrite map_app, in_app_iff. right. left.
    symmetry. exact Eno.
Qed.

(** X9: in a store that meets the schema constraints, deleting the invoice
    that a successful [create_invoice] returned restores the store the
    create started from. *)
Theorem delete_after_create now invoice s (r : InvoiceResponse num) s' :
  wf_store s = true ->
  create_invoice now invoice s = (Return r, s') ->
  delete_invoice (r_id r) s' = (Return tt, s).
Proof.
  intros Hwf Hcreate.
  destruct (create_invoice_inv now invoice s r s' Hcreate) as [_ [_ [_ [Es' Hget]]]].
  destruct (get_invoice_id _ _ _ _ Hget) as [Hid _]. subst s'. rewrite Hid.
  set (id := new_invoice_id s).
  assert (Hinv : forall i, In i (invoices s) -> negb (i_id i =? id) = true).
  { intros i Hi. apply negb_true_iff, Z.eqb_neq.
    pose proof (next_rowid_above i_id (invoices s) i Hi) as Hlt.
    unfold id, new_invoice_id. lia. }
  assert (Hitems : forall ii, In ii (invoice_items s) -> negb (ii_invoice_id ii =? id) = true).
  { intros ii Hii. apply negb_true_iff, Z.eqb_neq. intros E.
    apply (next_rowid_fresh i_id (invoices s)). fold (new_invoice_id s). fold id.
    rewrite <- E. apply wf_store_items; assumption. }
  rewrite delete_invoice_present
    by (unfold created; cbn [invoices]; rewrite map_app, in_app_iff;
        right; left; reflexivity).
  f_equal. unfold deleted, delete_invoice_row, delete_items_of, execute, created.
  cbn [snd set_invoices set_invoice_items clients products invoices invoice_items].
  rewrite !filter_app, (filter_all _ (invoices s) Hinv),
    (filter_all _ (invoice_items s) Hitems).
  cbn [filter new_invoice_row i_id]. fold id. rewrite Z.eqb_refl. cbn [negb].
  rewrite (filter_none _ (new_item_rows _ _ _ _)).
  - rewrite !app_nil_r. destruct s; reflexivity.
  - intros ii Hii. apply new_item_rows_invoice_id in Hii. rewrite Hii.
    fold id. rewrite Z.eqb_refl. reflexivity.
Qed.

(** ** What a write leaves of the other invoices *)

Lemma delete_invoice_inv id s s' :
  delete_invoice id s = (Return tt, s') ->
  In id (map i_id (invoices s)) /\ s' = deleted id s.
Proof.
  rewrite delete_invoice_run. destruct (binds _ _); [|discriminate].
  unfold select_invoice_id.
  destruct (filter (fun i => i_id i =? id) (invoices s)) as [|i rows] eqn:E;
    cbn [map fetchone hd_error]; [discriminate|].
  intros Hd. inversion Hd. split; [|reflexivity].
  apply (filter_key_inv i_id id (invoices s) i rows E).
Qed.

Lemma select_invoice_deleted id id' s :
  id' <> id -> select_invoice id' (deleted id s) = select_invoice id' s.
Proof.
  intros Hneq. unfold select_invoice, invoices_join_clients, deleted,
    delete_invoice_row, delete_items_of, execute.
  cbn [snd set_invoices set_invoice_items invoices clients].
  rewrite (join_filter_left _ (fun i : InvoiceRow num => negb (i_id i =? id))).
  apply filter_filter_weaker. intros [i c] Hi. cbn [fst] in *.
  apply Z.eqb_eq in Hi. apply negb_true_iff, Z.eqb_neq. congruence.
Qed.

Lemma item_rows_deleted id id' s :
  id' <> id -> item_rows id' (deleted id s) = item_rows id' s.
Proof.
  intros Hneq. unfold item_rows, deleted, delete_invoice_row, delete_items_of, execute.
  cbn [snd set_invoices set_invoice_items invoice_items].
  apply filter_filter_weaker. intros ii Hii.
  apply Z.eqb_eq in Hii. apply negb_true_iff, Z.eqb_neq. congruence.
Qed.

Lemma select_items_deleted id id' s :
  id' <> id -> select_items id' (deleted id s) = select_items id' s.
Proof.
  intros Hneq. unfold select_items, items_join_products, deleted,
    delete_invoice_row, delete_items_of, execute.
  cbn [snd set_invoices set_invoice_items invoice_items products].
  rewrite (join_filter_left _ (fun ii : InvoiceItemRow num => negb (ii_invoice_id ii =? id))).
  apply filter_filter_weaker. intros [ii p] Hii. cbn [fst] in *.
  apply Z.eqb_eq in Hii. apply negb_true_iff, Z.eqb_neq. congruence.
Qed.

Lemma item_rows_created now invoice id' s :
  id' <> new_invoice_id s ->
  item_rows id' (created now invoice s) = item_rows id' s.
Proof.
  intros Hneq. unfold item_rows, created. cbn [invoice_items].
  rewrite filter_app, (filter_none _ (new_item_rows _ _ _ _)); [apply app_nil_r|].
  intros ii Hii. apply new_item_rows_invoice_id in Hii. apply Z.eqb_neq. congruence.
Qed.

Lemma select_items_created_other now invoice id' s :
  id' <> new_invoice_id s ->
  select_items id' (created now invoice s) = select_items id' s.
Proof.
  intros Hneq. unfold select_items, items_join_products, created, join.
  cbn [invoice_items products].
  rewrite flat_map_app, filter_app, (filter_none _ (flat_map _ (new_item_rows _ _ _ _)));
    [apply app_nil_r|].
  intros [ii p] Hin. apply in_flat_map in Hin. destruct Hin as [ii' [Hii Hin]].
  apply in_map_iff in Hin. destruct Hin as [p' [E _]]. inversion E; subst.
  cbn [fst]. apply new_item_rows_invoice_id in Hii. apply Z.eqb_neq. congruence.
Qed.

Lemma select_invoice_created_other now invoice id' s :
  id' <> new_invoice_id s ->
  select_invoice id' (created now invoice s) = select_invoice id' s.
Proof.
  intros Hneq. unfold select_invoice, invoices_join_clients, created, join.
  cbn [invoices clients].
  rewrite flat_map_app, filter_app. cbn [flat_map]. rewrite app_nil_r.
  rewrite (filter_pair_left (fun i : InvoiceRow num => i_id i =? id')).
  cbn [new_invoice_row i_id].
  destruct (Z.eqb_spec (new_invoice_id s) id') as [E|_]; [congruence|].
  apply app_nil_r.
Qed.

Lemma binds_ext (keys keys' : list Z) (n : Z) :
  (In n keys <-> In n keys') -> binds keys n = binds keys' n.
Proof.
  intros Hiff. unfold binds. f_equal. apply eq_true_iff_eq.
  rewrite !existsb_eqb_In. exact Hiff.
Qed.

Lemma binds_deleted id id' s :
  id' <> id ->
  binds (map i_id (invoices (deleted id s))) id' = binds (map i_id (invoices s)) id'.
Proof.
  intros Hneq. apply binds_ext.
  change (invoices (deleted id s))
    with (filter (fun i => negb (i_id i =? id)) (invoices s)).
  rewrite !in_map_iff. split; intros [i [E Hi]]; exists i; (split; [exact E|]).
  - apply filter_In in Hi. apply Hi.
  - apply filter_In. split; [exact Hi|].
    apply negb_true_iff, Z.eqb_neq. congruence.
Qed.

Lemma binds_created now invoice id' s :
  id' <> new_invoice_id s ->
  binds (map i_id (invoices (created now invoice s))) id'
  = binds (map i_id (invoices s)) id'.
Proof.
  intros Hneq. apply binds_ext. unfold created. cbn [invoices].
  rewrite map_app, in_app_iff. cbn [map In new_invoice_row i_id].
  split; [intros [Hin|[E|[]]]; [exact Hin|congruence]|intros Hin; left; exact Hin].
Qed.

(** X10: deleting an invoice changes nothing of what [get_invoice]
    answers for any other id. *)
Theorem delete_invoice_keeps_others id id' s s' :
  delete_invoice id s = (Return tt, s') ->
  id' <> id ->
  get_invoice id' s' = (fst (get_invoice id' s), s').
Proof.
  intros Hd Hneq. destruct (delete_invoice_inv id s s' Hd) as [_ Es']. subst s'.
  rewrite !get_invoice_run.
  rewrite (binds_deleted id id' s Hneq),
    (select_invoice_deleted id id' s Hneq), (select_items_deleted id id' s Hneq).
  destruct (binds _ _); [|reflexivity].
  destruct (fetchone (select_invoice id' s)); reflexivity.
Qed.

(** X11: a successful [create_invoice] changes nothing of what
    [get_invoice] answers for any id other than the new one. *)
Theorem create_invoice_keeps_others now invoice id' s (r : InvoiceResponse num) s' :
  create_invoice now invoice s = (Return r, s') ->
  id' <> r_id r ->
  get_invoice id' s' = (fst (get_invoice id' s), s').
Proof.
  intros Hcreate Hneq.
  destruct (create_invoice_inv now invoice s r s' Hcreate) as [_ [_ [_ [Es' Hget]]]].
  destruct (get_invoice_id _ _ _ _ Hget) as [Hid _]. subst s'. rewrite Hid in Hneq.
  rewrite !get_invoice_run.
  rewrite (binds_created now invoice id' s Hneq),
    (select_invoice_created_other now invoice id' s Hneq),
    (select_items_created_other now invoice id' s Hneq).
  destruct (binds _ _); [|reflexivity].
  destruct (fetchone (select_invoice id' s)); reflexivity.
Qed.

(** ** Listing after a delete *)

Lemma insert_created_at_desc_head (row : InvoiceRow num * ClientRow) rows :
  (forall y, In y rows -> i_created_at (fst y) <= i_created_at (fst row)) ->
  insert_created_at_desc row rows = row :: rows.
Proof.
  destruct rows as [|y rows]; cbn [insert_created_at_desc]; intros Hle; [reflexivity|].
  pose proof (Hle y (or_introl eq_refl)) as Hy.
  destruct (Z.ltb_spec (i_created_at (fst row)) (i_created_at (fst y))); [lia|reflexivity].
Qed.

Lemma insert_created_at_desc_filter (f : InvoiceRow num * ClientRow -> bool) row rows :
  StronglySorted created_at_desc rows ->
  filter f (insert_created_at_desc row rows)
  = if f row then insert_created_at_desc row (filter f rows) else filter f rows.
Proof.
  induction rows as [|y rows IH]; intros Hs.
  - cbn [insert_created_at_desc filter]. destruct (f row); reflexivity.
  - inversion Hs as [|? ? Hs' Hall]; subst. rewrite Forall_forall in Hall.
    cbn [insert_created_at_desc].
    destruct (Z.ltb_spec (i_created_at (fst row)) (i_created_at (fst y))) as [Hlt|Hge].
    + cbn [filter]. rewrite (IH Hs').
      destruct (f row), (f y); try reflexivity.
      cbn [insert_created_at_desc].
      apply Z.ltb_lt in Hlt. rewrite Hlt. reflexivity.
    + change (filter f (row :: y :: rows))
        with (if f row then row :: filter f (y :: rows) else filter f (y :: rows)).
      destruct (f row); [|reflexivity].
      symmetry. apply insert_created_at_desc_head.
      intros z Hz. apply filter_In in Hz. destruct Hz as [[E|Hz] _].
      * subst z. lia.
      * specialize (Hall z Hz). unfold created_at_desc in Hall. lia.
Qed.

Lemma order_by_created_at_desc_filter (f : InvoiceRow num * ClientRow -> bool) rows :
  order_by_created_at_desc (filter f rows) = filter f (order_by_created_at_desc rows).
Proof.
  induction rows as [|row rows IH]; [reflexivity|].
  change (order_by_created_at_desc (row :: rows))
    with (insert_created_at_desc row (order_by_created_at_desc rows)).
  rewrite insert_created_at_desc_filter by apply order_by_created_at_desc_sorted.
  cbn [filter]. destruct (f row); [|exact IH].
  change (order_by_created_at_desc (row :: filter f rows))
    with (insert_created_at_desc row (order_by_created_at_desc (filter f rows))).
  rewrite IH. reflexivity.
Qed.

(** X12: after a successful [delete_invoice] the listing is the listing
    before without the summaries of the deleted id, the order of the others
    kept. *)
Theorem list_invoices_after_delete id s s' (l : list (InvoiceListItem num)) :
  delete_invoice id s = (Return tt, s') ->
  list_invoices s = (Return l, s) ->
  list_invoices s'
  = (Return (filter (fun it => negb (li_id it =? id)) l), s').
Proof.
  intros Hd Hl. destruct (delete_invoice_inv id s s' Hd) as [_ Es']. subst s'.
  rewrite list_invoices_run in Hl |- *. inversion Hl; subst l. clear Hl.
  f_equal. f_equal.
  rewrite filter_map_comm. cbn [summary li_id]. f_equal.
  rewrite <- order_by_created_at_desc_filter. f_equal.
  unfold invoices_join_clients, deleted, delete_invoice_row, delete_items_of, execute.
  cbn [snd set_invoices set_invoice_items invoices clients].
  apply (join_filter_left _ (fun i : InvoiceRow num => negb (i_id i =? id))).
Qed.

(** ** Invariants of the store *)

(** X13: whatever they answer, [create_invoice] and [delete_invoice] leave
    a store that meets the schema constraints (unique ids, unique invoice
    numbers, every item row owned by an invoice row) when they start in
    one. *)
Theorem handlers_keep_schema now invoice id s :
  wf_store s = true ->
  wf_store (snd (create_invoice now invoice s)) = true
  /\ wf_store (snd (delete_invoice id s)) = true.
Proof.
  intros Hwf. split.
  - apply create_invoice_keeps_wf, Hwf.
  - apply delete_invoice_keeps_wf, Hwf.
Qed.

(** X14: [get_invoice] and [list_invoices] leave the store as it is,
    whatever they answer, and no handler ever changes table [clients] or
    table [products]. *)
Theorem handlers_never_write now invoice id s :
  snd (get_invoice id s) = s
  /\ snd (list_invoices s) = s
  /\ clients (snd (create_invoice now invoice s)) = clients s
  /\ products (snd (create_invoice now invoice s)) = products s
  /\ clients (snd (delete_invoice id s)) = clients s
  /\ products (snd (delete_invoice id s)) = products s.
Proof.
  split; [apply get_invoice_store|]. split; [apply list_invoices_store|].
  assert (Hc : clients (snd (create_invoice now invoice s)) = clients s
               /\ products (snd (create_invoice now invoice s)) = products s).
  { destruct (create_invoice_store now invoice s) as [E|[_ [_ E]]]; rewrite E;
      split; reflexivity. }
  assert (Hd : clients (snd (delete_invoice id s)) = clients s
               /\ products (snd (delete_invoice id s)) = products s).
  { destruct (delete_invoice_store id s) as [E|E]; rewrite E; split; reflexivity. }
  tauto.
Qed.

Lemma totals_ok_created now invoice s :
  wf_store s = true ->
  forallb (product_exists s) (items invoice) = true ->
  totals_ok s -> totals_ok (created now invoice s).
Proof.
  intros Hwf Hps Hok i Hi. unfold created in Hi. cbn [invoices] in Hi.
  apply in_app_iff in Hi. destruct Hi as [Hi|[E|[]]].
  - rewrite item_rows_created; [apply Hok, Hi|].
    pose proof (next_rowid_above i_id (invoices s) i Hi) as Hlt.
    unfold new_invoice_id. lia.
  - subst i. cbn [new_invoice_row i_id i_total i_tax].
    destruct (select_items_created now invoice s Hwf Hps) as [Efst HF].
    rewrite <- Efst. unfold total_from, total_of.
    assert (Esub : sum (map (fun ii : InvoiceItemRow num =>
                               mul (ii_unit_price ii) (of_int (ii_quantity ii)))
                            (map fst (select_items (new_invoice_id s)
                                        (created now invoice s))))
                   = subtotal_of s invoice).
    { unfold sum, subtotal_of.
      rewrite <- (stored_sum s (new_invoice_id s) _ _ HF). rewrite !map_map. reflexivity. }
    rewrite Esub. reflexivity.
Qed.

Lemma totals_ok_deleted id s : totals_ok s -> totals_ok (deleted id s).
Proof.
  intros Hok i Hi.
  assert (Hi' : In i (invoices s) /\ i_id i <> id).
  { unfold deleted, delete_invoice_row, delete_items_of, execute in Hi.
    cbn [snd set_invoices set_invoice_items invoices] in Hi.
    apply filter_In in Hi. destruct Hi as [Hi Hneq].
    apply negb_true_iff, Z.eqb_neq in Hneq. auto. }
  destruct Hi' as [Hin Hneq].
  rewrite (item_rows_deleted id (i_id i) s Hneq). apply Hok, Hin.
Qed.


(** ** Items whose product is gone *)

Lemma map_fst_filter {A B} (g : A -> bool) (l : list (A * B)) :
  map fst (filter (fun row => g (fst row)) l) = filter g (map fst l).
Proof.
  induction l as [|[a b] l IH]; cbn [filter map fst]; [reflexivity|].
  destruct (g a); cbn [map fst]; rewrite IH; reflexivity.
Qed.

Lemma filter_comm {A} (f g : A -> bool) (l : list A) :
  filter f (filter g l) = filter g (filter f l).
Proof.
  induction l as [|a l IH]; cbn [filter]; [reflexivity|].
  destruct (f a) eqn:Ef, (g a) eqn:Eg; cbn [filter]; rewrite ?Ef, ?Eg, IH; reflexivity.
Qed.

Lemma select_items_with_product id s :
  wf_store s = true ->
  map fst (select_items id s) = filter (product_present s) (item_rows id s).
Proof.
  intros Hwf. unfold select_items, item_rows, items_join_products.
  rewrite (map_fst_filter (fun ii : InvoiceItemRow num => ii_invoice_id ii =? id)).
  rewrite (join_on_key ii_product_id p_id) by apply wf_store_products, Hwf.
  apply filter_comm.
Qed.

(** X16: the second query of [get_invoice] joins the item rows with
    [products], so (with unique product ids) the response holds exactly the
    item rows of the invoice whose product row exists, in table order, and
    [subtotal] sums only those; item rows whose product is gone are left out
    of both, while [total] stays the stored column. *)
Theorem get_invoice_items_with_product id s (r : InvoiceResponse num) s' :
  wf_store s = true ->
  get_invoice id s = (Return r, s') ->
  map (fun it => (ir_id it, ir_product_id it, ir_quantity it, ir_unit_price it))
      (r_items r)
  = map (fun ii => (ii_id ii, ii_product_id ii, ii_quantity ii, ii_unit_price ii))
        (filter (product_present s) (item_rows id s))
  /\ r_subtotal r
     = sum (map (fun ii => mul (ii_unit_price ii) (of_int (ii_quantity ii)))
                (filter (product_present s) (item_rows id s))).
Proof.
  intros Hwf Hget.
  pose proof (select_items_with_product id s Hwf) as Efst.
  destruct (get_invoice_inv id s r s' Hget) as [[i c] [_ [Er _]]]. subst r.
  unfold build_response. rewrite build_items_spec.
  cbn [r_items r_subtotal]. rewrite <- Efst, !map_map. split; reflexivity.
Qed.

(** X17: in a store that meets the schema constraints and whose stored
    totals agree with the stored item rows, [get_invoice] on an invoice all
    of whose items still have their product returns a [total] (the stored
    column) equal to the [subtotal] it recomputes plus the [tax_amount] it
    recomputes. *)
Theorem get_invoice_total_agrees id s (r : InvoiceResponse num) s' :
  wf_store s = true ->
  totals_ok s ->
  forallb (product_present s) (item_rows id s) = true ->
  get_invoice id s = (Return r, s') ->
  r_total r = add (r_subtotal r) (r_tax_amount r).
Proof.
  intros Hwf Hok Hall Hget.
  pose proof (select_items_with_product id s Hwf) as Efst.
  rewrite (filter_all _ _ (proj1 (forallb_forall _ _) Hall)) in Efst.
  destruct (get_invoice_inv id s r s' Hget) as [[i c] [Esel [Er _]]]. subst r.
  apply select_invoice_head in Esel. destruct Esel as [Hi [_ [Hid _]]].
  unfold build_response. rewrite build_items_spec.
  cbn [r_total r_subtotal r_tax_amount].
  rewrite (Hok i Hi), Hid, <- Efst. unfold total_from. rewrite !map_map. reflexivity.
Qed.

End Service.

(** * The further properties at the example data *)

Lemma db1_wf : wf_store db1 = true.
Proof. reflexivity. Qed.

Lemma created_r1 : create_invoice 100 inv1 db0 = (Return r1, db1).
Proof. vm_compute. reflexivity. Qed.

Lemma created_r2 : create_invoice 101 inv2 db1 = (Return r2, db2).
Proof. vm_compute. reflexivity. Qed.

Lemma deleted_1_of_db2 : delete_invoice 1 db2 = (Return tt, db2_without_1).
Proof. vm_compute. reflexivity. Qed.

Lemma db1_totals_ok : totals_ok db1.
Proof.
  intros i [E|[]]. subst i. apply Qc_is_canon. vm_compute. reflexivity.
Qed.

Lemma get_invoice_unknown_id_witness :
  ~ In 9 (map i_id (invoices db1))
  /\ get_invoice 9 db1 = (Raise invoice_not_found, db1)
  /\ response_status 200 (fst (get_invoice 9 db1)) = 404.
Proof.
  assert (Hn : ~ In 9 (map i_id (invoices db1))).
  { intros [E|[]]. discriminate E. }
  split; [exact Hn|]. exact (get_invoice_unknown_id 9 db1 Hn).
Defined.


Lemma get_invoice_client_vanished_witness :
  In row1 (invoices db2_no_clients)
  /\ client_present db2_no_clients row1 = false
  /\ get_invoice 1 db2_no_clients = (Raise invoice_not_found, db2_no_clients).
Proof.
  assert (Hwf : wf_store db2_no_clients = true) by reflexivity.
  assert (Hin : In row1 (invoices db2_no_clients)) by (left; reflexivity).
  assert (Hc : client_present db2_no_clients row1 = false) by reflexivity.
  split; [exact Hin|]. split; [exact Hc|].
  exact (get_invoice_client_vanished db2_no_clients row1 Hwf Hin Hc).
Defined.

Lemma list_invoices_with_client_witness :
  wf_store db2_no_clients = true
  /\ List.length (invoices db2_no_clients) = 2%nat
  /\ list_invoices db2_no_clients = (Return [], db2_no_clients).
Proof.
  assert (Hwf : wf_store db2_no_clients = true) by reflexivity.
  split; [exact Hwf|]. split; [reflexivity|].
  destruct (list_invoices_with_client db2_no_clients Hwf) as [l [El [Hp _]]].
  rewrite El. apply Permutation_length in Hp. rewrite length_map in Hp.
  destruct l; [reflexivity|discriminate Hp].
Defined.

Lemma create_invoice_appends_witness :
  create_invoice 100 inv1 db0 = (Return r1, db1)
  /\ clients db1 = clients db0
  /\ products db1 = products db0
  /\ exists row rows,
       invoices db1 = invoices db0 ++ [row]
       /\ invoice_items db1 = invoice_items db0 ++ rows
       /\ i_invoice_no row = "INV-1"
       /\ map ii_product_id rows = [1]
       /\ map ii_quantity rows = [3].
Proof.
  split; [exact created_r1|].
  destruct (create_invoice_appends 100 inv1 db0 r1 db1 created_r1)
    as [Hc [Hp [row [rows [Hi [Hii [_ [_ [Hno [_ [_ [_ [_ [_ [_ [Hpid Hq]]]]]]]]]]]]]]]].
  split; [exact Hc|]. split; [exact Hp|].
  exists row, rows. repeat split; assumption.
Defined.

Lemma create_invoice_echoes_request_witness :
  create_invoice 100 inv1 db0 = (Return r1, db1)
  /\ r_invoice_no r1 = "INV-1"
  /\ r_issue_date r1 = "2024-01-01"
  /\ r_due_date r1 = "2024-01-31"
  /\ r_tax r1 = of_int 10
  /\ cr_id (r_client r1) = 1.
Proof.
  split; [exact created_r1|].
  destruct (create_invoice_echoes_request 100 inv1 db0 r1 db1 created_r1)
    as [H1 [H2 [H3 [H4 [H5 _]]]]].
  repeat split; assumption.
Defined.

Lemma create_invoice_twice_witness :
  create_invoice 100 inv1 db0 = (Return r1, db1)
  /\ invoice_no inv1_again = invoice_no inv1
  /\ create_invoice 101 inv1_again db1
     = (Raise (HTTPException 400 "Invoice number INV-1 already exists"), db1).
Proof.
  split; [exact created_r1|]. split; [reflexivity|].
  exact (create_invoice_twice 100 101 inv1 inv1_again db0 r1 db1 created_r1
           eq_refl acme_exists).
Defined.

Lemma delete_after_create_witness :
  wf_store db1 = true
  /\ create_invoice 101 inv2 db1 = (Return r2, db2)
  /\ delete_invoice (r_id r2) db2 = (Return tt, db1).
Proof.
  split; [exact db1_wf|]. split; [exact created_r2|].
  exact (delete_after_create 101 inv2 db1 r2 db2 db1_wf created_r2).
Defined.

Lemma delete_invoice_keeps_others_witness :
  delete_invoice 1 db2 = (Return tt, db2_without_1)
  /\ get_invoice 2 db2_without_1 = (fst (get_invoice 2 db2), db2_without_1)
  /\ fst (get_invoice 2 db2) = Return r2.
Proof.
  assert (Hneq : 2 <> 1) by discriminate.
  split; [exact deleted_1_of_db2|].
  split; [exact (delete_invoice_keeps_others 1 2 db2 db2_without_1 deleted_1_of_db2 Hneq)|].
  vm_compute. reflexivity.
Defined.

Lemma create_invoice_keeps_others_witness :
  create_invoice 101 inv2 db1 = (Return r2, db2)
  /\ 1 <> r_id r2
  /\ get_invoice 1 db2 = (fst (get_invoice 1 db1), db2)
  /\ fst (get_invoice 1 db1) = Return r1.
Proof.
  assert (Hneq : 1 <> r_id r2) by discriminate.
  split; [exact created_r2|]. split; [exact Hneq|].
  split; [exact (create_invoice_keeps_others 101 inv2 1 db1 r2 db2 created_r2 Hneq)|].
  vm_compute. reflexivity.
Defined.

Lemma list_invoices_after_delete_witness :
  delete_invoice 1 db2 = (Return tt, db2_without_1)
  /\ list_invoices db2 = (Return [summary_of_response r2; summary_of_response r1], db2)
  /\ list_invoices db2_without_1 = (Return [summary_of_response r2], db2_without_1).
Proof.
  assert (El : list_invoices db2
               = (Return [summary_of_response r2; summary_of_response r1], db2))
    by (vm_compute; reflexivity).
  split; [exact deleted_1_of_db2|]. split; [exact El|].
  exact (list_invoices_after_delete 1 db2 db2_without_1 _ deleted_1_of_db2 El).
Defined.

Lemma handlers_keep_schema_witness :
  wf_store db1 = true
  /\ wf_store (snd (create_invoice 101 inv2 db1)) = true
  /\ wf_store (snd (delete_invoice 1 db1)) = true.
Proof.
  split; [exact db1_wf|]. exact (handlers_keep_schema 101 inv2 1 db1 db1_wf).
Defined.


Lemma get_invoice_items_with_product_witness :
  wf_store db1_no_products = true
  /\ get_invoice 1 db1_no_products = (Return r1_no_products, db1_no_products)
  /\ List.length (item_rows 1 db1_no_products) = 1%nat
  /\ r_items r1_no_products = []
  /\ r_subtotal r1_no_products = of_int 0.
Proof.
  assert (Hwf : wf_store db1_no_products = true) by reflexivity.
  assert (Hget : get_invoice 1 db1_no_products = (Return r1_no_products, db1_no_products))
    by (vm_compute; reflexivity).
  split; [exact Hwf|]. split; [exact Hget|]. split; [reflexivity|].
  destruct (get_invoice_items_with_product 1 db1_no_products r1_no_products
              db1_no_products Hwf Hget) as [Hitems Hsub].
  split; [|exact Hsub].
  destruct (r_items r1_no_products); [reflexivity|discriminate Hitems].
Defined.

Lemma get_invoice_total_agrees_witness :
  wf_store db1 = true
  /\ totals_ok db1
  /\ forallb (product_present db1) (item_rows 1 db1) = true
  /\ get_invoice 1 db1 = (Return r1, db1)
  /\ r_total r1 = add (r_subtotal r1) (r_tax_amount r1).
Proof.
  assert (Hall : forallb (product_present db1) (item_rows 1 db1) = true) by reflexivity.
  assert (Hget : get_invoice 1 db1 = (Return r1, db1)) by (vm_compute; reflexivity).
  split; [exact db1_wf|]. split; [exact db1_totals_ok|]. split; [exact Hall|].
  split; [exact Hget|].
  exact (get_invoice_total_agrees 1 db1 r1 db1 db1_wf db1_totals_ok Hall Hget).
Defined.
